(** * The Responsive content-library MCP server

    A shallow embedding of [mcp_responsive.py]: the module globals, the
    transport function [make_responsive_request], the tool
    [search_content] with its signature and defaults, and the tool registry
    the decorator fills.  Python objects live in a store addressed by
    locations, so that the default objects of the tool's list and mapping
    parameters are shared between calls as they are in Python.  The remote
    service and the [httpx] client are the environment: a value of type
    [remote] says what one outbound call does. *)

From Stdlib Require Import ZArith.
From stdpp Require Import base option list gmap strings pretty.

(** ** Python values *)

#[local] Set Warnings "-register-all".

(** The values a tool argument or a JSON body can hold.  A float is kept as
    its literal: nothing here computes with one. *)
Inductive pyvalue : Type :=
| PyNone
| PyBool (b : bool)
| PyInt (n : Z)
| PyFloat (repr : string)
| PyStr (s : string)
| PyList (items : list pyvalue)
| PyDict (items : list (string * pyvalue)).

(** Type annotations, as written in the signature of [search_content]. *)
Inductive pytype : Type :=
| TStr
| TInt
| TBool
| TAny
| TList (elt : pytype)
| TDict (key value : pytype).

(** Locations of objects in the store. *)
Abbreviation loc := nat.

(** ** Exceptions *)

(** The exception classes that matter to the handlers of
    [make_responsive_request]: Python's own, [json]'s and [httpx]'s.
    [httpx.HTTPStatusError] is not listed: it is the one class whose
    instances carry a response, and has a constructor of its own in [exn]. *)
Inductive pyclass : Type :=
| BaseException
| KeyboardInterrupt
| SystemExit
| CancelledError
| Exception
| TypeError
| RuntimeError
| OSError
| NameError
| ValueError
| UnicodeError
| UnicodeDecodeError
| JSONDecodeError
| HTTPError
| RequestError
| TransportError
| TimeoutException
| ConnectTimeout
| ReadTimeout
| NetworkError
| ConnectError
| ReadError
| ProtocolError
| DecodingError
| TooManyRedirects.

#[global] Instance pyclass_eq_dec : EqDecision pyclass.
Proof. solve_decision. Defined.

(** The direct base class. *)
Definition base (c : pyclass) : option pyclass :=
  match c with
  | BaseException => None
  | KeyboardInterrupt | SystemExit | CancelledError | Exception => Some BaseException
  | TypeError | RuntimeError | OSError | NameError | ValueError | HTTPError =>
      Some Exception
  | UnicodeError | JSONDecodeError => Some ValueError
  | UnicodeDecodeError => Some UnicodeError
  | RequestError => Some HTTPError
  | TransportError | DecodingError | TooManyRedirects => Some RequestError
  | TimeoutException | NetworkError | ProtocolError => Some TransportError
  | ConnectTimeout | ReadTimeout => Some TimeoutException
  | ConnectError | ReadError => Some NetworkError
  end.

(** The chain of classes from [c] up, cut after [fuel] steps. *)
Fixpoint bases_upto (fuel : nat) (c : pyclass) : list pyclass :=
  c :: match fuel with
       | O => []
       | S fuel' => match base c with
                    | Some b => bases_upto fuel' b
                    | None => []
                    end
       end.

(** The method resolution order; the deepest class above is seven steps
    below [BaseException] (see [mro_complete]). *)
Definition mro (c : pyclass) : list pyclass := bases_upto 7 c.

Definition issubclass (c d : pyclass) : bool := bool_decide (d ∈ mro c).

(** What [httpx] hands back for a request that got an answer.  [json_result]
    is what [response.json()] does on the body: the parsed value, or the
    class and text of the exception it raises. *)
Record Response : Type := {
  status_code : Z;
  text : string;
  json_result : pyvalue + pyclass * string;
}.

Inductive exn : Type :=
| HTTPStatusError (message : string) (response : Response)
| PyExn (cls : pyclass) (message : string).

(** [str(e)]. *)
Definition str (e : exn) : string :=
  match e with
  | HTTPStatusError m _ => m
  | PyExn _ m => m
  end.

(** [isinstance(e, C)] for the classes the handlers name. *)
Definition is_RequestError (e : exn) : bool :=
  match e with
  | HTTPStatusError _ _ => false
  | PyExn c _ => issubclass c RequestError
  end.

Definition is_HTTPStatusError (e : exn) : bool :=
  match e with
  | HTTPStatusError _ _ => true
  | PyExn _ _ => false
  end.

Definition is_JSONDecodeError (e : exn) : bool :=
  match e with
  | HTTPStatusError _ _ => false
  | PyExn c _ => issubclass c JSONDecodeError
  end.

Definition is_Exception (e : exn) : bool :=
  match e with
  | HTTPStatusError _ _ => true
  | PyExn c _ => issubclass c Exception
  end.

(** ** The world *)

(** One call of [client.post]: what goes on the wire. *)
Record Request : Type := {
  url : string;
  headers : list (string * string);
  json : pyvalue;
  timeout : Z;
}.

(** What [await client.post(...)] does: raise, or hand back a response. *)
Inductive post_outcome : Type :=
| PostRaises (e : exn)
| PostReturns (r : Response).

(** The environment of one outbound call. *)
Definition remote : Type := Request → post_outcome.

(** A line written by [print].  The text of [json.dumps(data, indent=2)] is
    not rendered: the line keeps the value that was dumped. *)
Inductive out_line : Type :=
| Line (s : string)
| SearchData (body : pyvalue).

Record parameter : Type := {
  p_name : string;
  p_annotation : pytype;
  p_default : option pyvalue;
  p_doc : string;
}.

Record ToolDescriptor : Type := {
  t_name : string;
  t_description : string;
  t_parameters : list parameter;
}.

(** The state of the server process: the object store, the module global
    [api_token], the tools registered on [mcp], what was printed and the
    outbound calls issued, oldest first. *)
Record world : Type := {
  objects : gmap loc pyvalue;
  api_token : option string;
  tools : list ToolDescriptor;
  stdout : list out_line;
  wire : list Request;
}.

(** ** Computations *)

Inductive outcome (A : Type) : Type :=
| Returned (a : A)
| Raised (e : exn).
Arguments Returned {A} a.
Arguments Raised {A} e.

(** A computation runs in a world and returns or raises in a new world;
    [None] is reserved for what no Python run does (reading a location that
    holds no object). *)
Definition M (A : Type) : Type := world → option (outcome A * world).

Definition ret {A} (a : A) : M A := λ w, Some (Returned a, w).
Definition raise {A} (e : exn) : M A := λ w, Some (Raised e, w).

Definition bind {A B} (k : A → M B) (m : M A) : M B := λ w,
  match m w with
  | Some (Returned a, w') => k a w'
  | Some (Raised e, w') => Some (Raised e, w')
  | None => None
  end.

(** stdpp's monad notations: [x ← m; k] and [m;; k]. *)
#[global] Instance M_ret : MRet M := @ret.
#[global] Instance M_bind : MBind M := @bind.

(** [try: m except ...: h]: [h] sees what [m] raised. *)
Definition try_except {A} (m : M A) (h : exn → M A) : M A := λ w,
  match m w with
  | Some (Raised e, w') => h e w'
  | r => r
  end.

(** The world with one more line printed, and with one more call issued. *)
Definition printed (l : out_line) (w : world) : world :=
  {| objects := objects w; api_token := api_token w; tools := tools w;
     stdout := stdout w ++ [l]; wire := wire w |}.

Definition sent (rq : Request) (w : world) : world :=
  {| objects := objects w; api_token := api_token w; tools := tools w;
     stdout := stdout w; wire := wire w ++ [rq] |}.

(** The world in which a caller has put the object [v] at [l]. *)
Definition allocate (l : loc) (v : pyvalue) (w : world) : world :=
  {| objects := <[l := v]> (objects w); api_token := api_token w; tools := tools w;
     stdout := stdout w; wire := wire w |}.

Definition print (l : out_line) : M unit := λ w, Some (Returned tt, printed l w).

(** The truth value of [api_token]: [None] and the empty string are false. *)
Definition truthy (t : option string) : bool :=
  match t with
  | Some s => negb (String.eqb s "")
  | None => false
  end.

(** [f"{api_token}"]. *)
Definition format_token (t : option string) : string :=
  match t with
  | Some s => s
  | None => "None"
  end.

(** The object a location holds. *)
Definition deref (l : loc) : M pyvalue := λ w,
  match objects w !! l with
  | Some v => Some (Returned v, w)
  | None => None
  end.

(** A dict of references read through the store, as a serialiser does. *)
Fixpoint dump_items (data : list (string * loc)) : M (list (string * pyvalue)) :=
  match data with
  | [] => ret []
  | (k, l) :: rest =>
      v ← deref l;
      vs ← dump_items rest;
      ret ((k, v) :: vs)
  end.

Definition json_dumps (data : list (string * loc)) : M pyvalue :=
  items ← dump_items data; ret (PyDict items).

(** ** [make_responsive_request] *)

Definition base_url : string := "https://app.rfpio.com".

Definition get_api_token : M (option string) := λ w, Some (Returned (api_token w), w).

(** [httpx]: a response is a success when its status is 2xx, and
    [raise_for_status] raises [HTTPStatusError] with the response otherwise.
    The handler below never reads the text of that exception. *)
Definition is_success (r : Response) : bool :=
  bool_decide (200 ≤ status_code r ≤ 299)%Z.

Definition raise_for_status (r : Response) : M unit :=
  if is_success r then ret tt
  else raise (HTTPStatusError ("HTTP status " +:+ pretty (status_code r)) r).

(** [response.json()]. *)
Definition response_json (r : Response) : M pyvalue :=
  match json_result r with
  | inl v => ret v
  | inr (c, m) => raise (PyExn c m)
  end.

(** One request on the wire, answered by the environment. *)
Definition send (srv : remote) (rq : Request) : M Response := λ w,
  match srv rq with
  | PostRaises e => Some (Raised e, sent rq w)
  | PostReturns r => Some (Returned r, sent rq w)
  end.

(** [await client.post(url, headers=headers, json=data, timeout=t)]: the
    body is serialised from the store, then the call is made. *)
Definition client_post (srv : remote) (u : string) (hs : list (string * string))
    (data : list (string * loc)) (t : Z) : M Response :=
  body ← json_dumps data;
  send srv {| url := u; headers := hs; json := body; timeout := t |}.

(** The mapping every handler returns: [{"error": msg}]. *)
Definition error_dict (msg : string) : pyvalue := PyDict [("error", PyStr msg)].

(** The four [except] clauses, tried in the order they are written; an
    exception none of them names goes on. *)
Definition handlers (e : exn) : M pyvalue :=
  if is_RequestError e then
    print (Line ("Error during request: " +:+ str e));;
    ret (error_dict ("Error communicating with Responsive API: " +:+ str e))
  else
    match e with
    | HTTPStatusError _ r =>
        print (Line ("HTTP Error: " +:+ pretty (status_code r) +:+ ", " +:+ text r));;
        ret (error_dict ("HTTP Error: " +:+ pretty (status_code r)))
    | PyExn _ _ =>
        if is_JSONDecodeError e then
          print (Line ("JSON Decode Error: " +:+ str e));;
          ret (error_dict "Invalid JSON response from server")
        else if is_Exception e then
          print (Line ("An unexpected error occurred: " +:+ str e));;
          ret (error_dict ("An unexpected error occurred: " +:+ str e))
        else raise e
    end.

(** The timeout is the literal [30.0], in seconds. *)
Definition make_responsive_request (srv : remote) (data : list (string * loc)) : M pyvalue :=
  tok ← get_api_token;
  if negb (truthy tok) then
    raise (PyExn Exception "RESPONSIVE_API_TOKEN environment variable not set")
  else
    let hs := [("Authorization", "Bearer " +:+ format_token tok);
               ("Content-Type", "application/json")] in
    let u := base_url +:+ "/rfpserver/ext/v1/answer-lib/search" in
    try_except
      (response ← client_post srv u hs data 30;
       raise_for_status response;;
       response_json response)
      handlers.

(** ** [search_content]: signature, defaults and registration *)

Definition param (n : string) (t : pytype) (d : option pyvalue) (doc : string) : parameter :=
  {| p_name := n; p_annotation := t; p_default := d; p_doc := doc |}.

(** The parameters in the order of the [def], each with its annotation, its
    default expression and its line of the docstring's [Args] section. *)
Definition search_content_signature : list parameter := [
  param "keyword" TStr None "Keyword to search for";
  param "approvers" (TList TStr) (Some (PyList [])) "List of approvers";
  param "businessUnits" (TList TStr) (Some (PyList [])) "List of business units";
  param "collectionList" (TList TStr) (Some (PyList [])) "List of collections";
  param "cursor" TStr (Some (PyStr "*")) "Cursor for pagination";
  param "customFields" (TDict TStr TAny) (Some (PyDict [])) "JSON object for custom fields";
  param "facetFields" (TList TStr) (Some (PyList [])) "List of facet fields";
  param "flagFilter" TStr (Some (PyStr "ALL")) "Flag filter (ALL, STARRED, UNSTARRED)";
  param "hasAlertText" TBool (Some (PyBool false)) "Filter for items with alert text";
  param "hasAttachment" TBool (Some (PyBool false)) "Filter for items with attachments";
  param "hasImage" TBool (Some (PyBool false)) "Filter for items with images";
  param "hasOpenComment" TBool (Some (PyBool false)) "Filter for items with open comments";
  param "idsList" (TList TStr) (Some (PyList [])) "List of IDs";
  param "languageSearch" (TList TStr) (Some (PyList [])) "List of languages";
  param "lastUpdatedBy" (TList TStr) (Some (PyList [])) "List of last updated by users";
  param "limit" TInt (Some (PyInt 25)) "Maximum number of results";
  param "metadata" TBool (Some (PyBool false)) "Include metadata in results";
  param "owners" (TList TStr) (Some (PyList [])) "List of owners";
  param "projectSearch" (TList TStr) (Some (PyList [])) "List of projects";
  param "sectionSearch" (TList TStr) (Some (PyList [])) "List of sections";
  param "starRating" TInt (Some (PyInt 0)) "Minimum star rating";
  param "tagSearch" (TList TStr) (Some (PyList [])) "List of tags"
].

Definition parameter_names : list string := p_name <$> search_content_signature.

(** Executing the [def]: the default expressions are evaluated once, left to
    right, each to an object of its own; the function keeps the locations. *)
Fixpoint eval_defaults (ps : list parameter) (next : loc) : list (string * (loc * pyvalue)) :=
  match ps with
  | [] => []
  | p :: ps' =>
      match p_default p with
      | Some v => (p_name p, (next, v)) :: eval_defaults ps' (S next)
      | None => eval_defaults ps' next
      end
  end.

Definition default_objects : list (string * (loc * pyvalue)) :=
  eval_defaults search_content_signature 0.

(** [search_content.__defaults__], by parameter name. *)
Definition search_content_defaults : gmap string loc :=
  list_to_map (prod_map id fst <$> default_objects).

(** The tool as [@mcp.tool()] registers it: named after the function,
    described by the docstring's opening paragraph, with the signature as its
    parameter schema. *)
Definition search_content_tool : ToolDescriptor :=
  {| t_name := "search_content";
     t_description :=
       "Search the Responsive Content Library for matching Q/A pairs using keywords and additional filters.";
     t_parameters := search_content_signature |}.

(** [mcp.tool()] applied to a function: the registry grows by one. *)
Definition register (d : ToolDescriptor) (w : world) : world :=
  {| objects := objects w; api_token := api_token w; tools := tools w ++ [d];
     stdout := stdout w; wire := wire w |}.

(** The world after the module has been executed in the process
    environment [environ]: [mcp = FastMCP(...)] with no tool,
    [api_token = os.environ.get('RESPONSIVE_API_TOKEN')], the default objects
    of [search_content], and its registration. *)
Definition import_module (environ : gmap string string) : world :=
  register search_content_tool
    {| objects := list_to_map (snd <$> default_objects);
       api_token := environ !! "RESPONSIVE_API_TOKEN";
       tools := [];
       stdout := [];
       wire := [] |}.

(** [await session.list_tools()], served from the registry. *)
Definition list_tools : M (list ToolDescriptor) := λ w, Some (Returned (tools w), w).

(** ** Calling [search_content] *)

(** Keyword arguments that name no parameter. *)
Definition unexpected (kwargs : gmap string loc) : list string :=
  filter (λ k, k ∉ parameter_names) (fst <$> map_to_list kwargs).

(** Each parameter takes its keyword argument, else its default object; a
    parameter with neither is a [TypeError]. *)
Fixpoint bind_parameters (ps : list parameter) (kwargs : gmap string loc)
    : outcome (gmap string loc) :=
  match ps with
  | [] => Returned ∅
  | p :: ps' =>
      match kwargs !! p_name p, search_content_defaults !! p_name p with
      | Some l, _ | None, Some l =>
          match bind_parameters ps' kwargs with
          | Returned locals => Returned (<[p_name p := l]> locals)
          | Raised e => Raised e
          end
      | None, None =>
          Raised (PyExn TypeError
            ("search_content() missing 1 required positional argument: '"
               +:+ p_name p +:+ "'"))
      end
  end.

(** A call of [search_content] with keyword arguments, up to the first
    statement of the body. *)
Definition bind_arguments (kwargs : gmap string loc) : M (gmap string loc) :=
  match unexpected kwargs with
  | k :: _ =>
      raise (PyExn TypeError
        ("search_content() got an unexpected keyword argument '" +:+ k +:+ "'"))
  | [] =>
      match bind_parameters search_content_signature kwargs with
      | Returned locals => ret locals
      | Raised e => raise e
      end
  end.

(** Reading a local variable. *)
Definition var (locals : gmap string loc) (x : string) : M loc :=
  match locals !! x with
  | Some l => ret l
  | None => raise (PyExn NameError ("name '" +:+ x +:+ "' is not defined"))
  end.

(** A dict display [{k1: x1, ...}] over local variables: the entries in the
    order written, each holding the object its variable names. *)
Fixpoint dict_display (entries : list (string * string)) (locals : gmap string loc)
    : M (list (string * loc)) :=
  match entries with
  | [] => ret []
  | (k, x) :: rest =>
      l ← var locals x;
      ls ← dict_display rest locals;
      ret ((k, l) :: ls)
  end.

(** The display assigned to [data]: key, then the variable it is given. *)
Definition data_display : list (string * string) := [
  ("keyword", "keyword");
  ("approvers", "approvers");
  ("businessUnits", "businessUnits");
  ("collectionList", "collectionList");
  ("cursor", "cursor");
  ("customFields", "customFields");
  ("facetFields", "facetFields");
  ("flagFilter", "flagFilter");
  ("hasAlertText", "hasAlertText");
  ("hasAttachment", "hasAttachment");
  ("hasImage", "hasImage");
  ("hasOpenComment", "hasOpenComment");
  ("idsList", "idsList");
  ("languageSearch", "languageSearch");
  ("lastUpdatedBy", "lastUpdatedBy");
  ("limit", "limit");
  ("metadata", "metadata");
  ("owners", "owners");
  ("projectSearch", "projectSearch");
  ("sectionSearch", "sectionSearch");
  ("starRating", "starRating");
  ("tagSearch", "tagSearch")
].

(** The request builder: argument binding, then the [data] display. *)
Definition build (kwargs : gmap string loc) : M (list (string * loc)) :=
  locals ← bind_arguments kwargs;
  dict_display data_display locals.

Definition search_content (srv : remote) (kwargs : gmap string loc) : M pyvalue :=
  data ← build kwargs;
  body ← json_dumps data;
  print (SearchData body);;
  make_responsive_request srv data.

(** ** The tool as registered *)

(** Modelled from the spec: the values an annotation admits, as far as the
    specification states a rule: an argument annotated [str] is a string,
    one annotated [List[str]] a list of strings.  It states none for the
    other annotations. *)
Fixpoint conforms (t : pytype) (v : pyvalue) : bool :=
  match t with
  | TStr => match v with PyStr _ => true | _ => false end
  | TList elt => match v with PyList items => forallb (conforms elt) items | _ => false end
  | TInt | TBool | TAny | TDict _ _ => true
  end.

(** Modelled from the spec: one parameter against the arguments.  A given
    argument conforms to the annotation, and a parameter without a default
    is given.  The failure is a [ValueError], the class validation errors
    derive from. *)
Definition check_argument (kwargs : gmap string loc) (p : parameter) : M unit :=
  match kwargs !! p_name p with
  | Some l =>
      v ← deref l;
      if conforms (p_annotation p) v then ret tt
      else raise (PyExn ValueError ("validation error: " +:+ p_name p))
  | None =>
      match p_default p with
      | Some _ => ret tt
      | None => raise (PyExn ValueError ("validation error: " +:+ p_name p
                                           +:+ ": field required"))
      end
  end.

(** Modelled from the spec: every parameter of the schema is checked, in
    the order of the signature; the first failure is the one raised. *)
Fixpoint check_arguments (ps : list parameter) (kwargs : gmap string loc) : M unit :=
  match ps with
  | [] => ret tt
  | p :: ps' => check_argument kwargs p;; check_arguments ps' kwargs
  end.

(** Modelled from the spec: the registry that [@mcp.tool()] puts the
    function in is the framework's and not part of the repository.  As the
    specification has it (sections 4.1 and 4.3), an invocation is validated
    against the descriptor's schema, here the annotations and defaults of
    the signature, before the function is called: it is rejected if
    [keyword] is missing or not a string, or if a list-typed parameter is not
    a sequence of strings.  Arguments that name no parameter are not passed
    on.  What passes is bound and built as by a call of the function. *)
Definition validated_build (kwargs : gmap string loc) : M (list (string * loc)) :=
  check_arguments search_content_signature kwargs;;
  build (filter (λ kl, kl.1 ∈ parameter_names) kwargs).

(** * [mcp_responsive_client.py] *)

(** [StdioServerParameters(command=..., args=..., env=...)]: how the client
    has the server started.  Every value of [env] is a string. *)
Record ServerParameters : Type := {
  command : string;
  args : list string;
  env : list (string * string);
}.

(** [server_params], evaluated when the client module is executed in the
    environment [environ].  The value given for [RESPONSIVE_API_TOKEN] is
    what [os.environ.get] returned: with the variable unset it is [None],
    which the constructor refuses with a validation error (a [ValueError]),
    so the module stops there. *)
Definition server_params (environ : gmap string string) : exn + ServerParameters :=
  match environ !! "RESPONSIVE_API_TOKEN" with
  | Some tok =>
      inr {| command := "python3";
             args := ["mcp_responsive.py"];
             env := [("RESPONSIVE_API_TOKEN", tok)] |}
  | None => inl (PyExn ValueError "1 validation error for StdioServerParameters")
  end.

(** The two context managers [run] enters, and the session methods it
    awaits. *)
Inductive context_manager : Type :=
| StdioClient (params : ServerParameters)
| ClientSession.

Inductive session_call : Type :=
| Initialize
| ListPrompts
| ListResources
| ListTools
| CallTool (name : string) (arguments : list (string * pyvalue)).

(** What the client asks of the library, in order: [__aenter__] of a context
    manager, its [__aexit__] with the exception that is leaving the block if
    there is one, and a session method. *)
Inductive client_event : Type :=
| Enter (c : context_manager)
| Exit (c : context_manager) (leaving : option exn)
| Call (m : session_call).

Section Client.

(** The values the library hands back (sessions, listings, tool results). *)
Context {R : Type}.

(** The library and the server behind it, as the client meets them: each
    answer may depend on everything asked before.  [__aexit__] answers with
    the truth value of what it returns: true swallows the exception. *)
Record peer : Type := {
  on_enter : list client_event → context_manager → exn + R;
  on_exit : list client_event → context_manager → option exn → exn + bool;
  on_call : list client_event → session_call → exn + R;
}.

(** The client process: what it has asked so far and what it has printed,
    each line as its label and the value formatted after it. *)
Record client : Type := {
  history : list client_event;
  shown : list (string * R);
}.

Definition C (A : Type) : Type := client → outcome A * client.

Definition asked (ev : client_event) (st : client) : client :=
  {| history := history st ++ [ev]; shown := shown st |}.

Definition answer {A} (a : exn + A) (st : client) : outcome A * client :=
  match a with
  | inl e => (Raised e, st)
  | inr x => (Returned x, st)
  end.

(** [await session.m(...)]. *)
Definition call (p : peer) (m : session_call) : C R := λ st,
  answer (on_call p (history st) m) (asked (Call m) st).

(** [print(label, value)]. *)
Definition show (label : string) (value : R) : C unit := λ st,
  (Returned tt, {| history := history st; shown := shown st ++ [(label, value)] |}).

Definition then_ {A B} (m : C A) (k : A → C B) : C B := λ st,
  match m st with
  | (Returned a, st') => k a st'
  | (Raised e, st') => (Raised e, st')
  end.

(** [async with c as x: body]: if [__aenter__] raises, the block is not
    run and nothing is exited; otherwise [__aexit__] is awaited when the
    block is left, with the exception that leaves it, if any.  An exception
    raised by [__aexit__] takes the place of the one leaving; a true answer
    swallows it; otherwise it goes on. *)
Definition with_context (p : peer) (c : context_manager) (body : R → C unit) : C unit :=
  λ st,
    match answer (on_enter p (history st) c) (asked (Enter c) st) with
    | (Raised e, st1) => (Raised e, st1)
    | (Returned x, st1) =>
        let (o, st2) := body x st1 in
        let leaving := match o with Raised e => Some e | Returned _ => None end in
        match answer (on_exit p (history st2) c leaving) (asked (Exit c leaving) st2) with
        | (Raised e', st3) => (Raised e', st3)
        | (Returned swallow, st3) =>
            match o with
            | Raised e => if swallow then (Returned tt, st3) else (Raised e, st3)
            | Returned _ => (Returned tt, st3)
            end
        end
    end.

(** The session methods [run] awaits, in the order it awaits them. *)
Definition script : list session_call :=
  [Initialize; ListPrompts; ListResources; ListTools;
   CallTool "search_content" [("keyword", PyStr "conduct")]].

(** [run()], for the value [params] of [server_params]. *)
Definition run (p : peer) (params : ServerParameters) : C unit :=
  with_context p (StdioClient params) (λ _,
    with_context p ClientSession (λ session,
      then_ (call p Initialize) (λ _,
      then_ (call p ListPrompts) (λ prompts,
      then_ (show "prompts: " prompts) (λ _,
      then_ (call p ListResources) (λ resources,
      then_ (show "resources: " resources) (λ _,
      then_ (call p ListTools) (λ tools,
      then_ (show "tools: " tools) (λ _,
      then_ (call p (CallTool "search_content" [("keyword", PyStr "conduct")]))
        (λ result,
      show "search results:" result)))))))))).

(** The module executed as a script in the environment [environ]:
    [server_params] is evaluated, then [asyncio.run(run())]. *)
Definition main (p : peer) (environ : gmap string string) : C unit := λ st,
  match server_params environ with
  | inl e => (Raised e, st)
  | inr params => run p params st
  end.

(** The session methods awaited from the history [h] on when each of [ms]
    is awaited in turn and the first to raise ends it: the methods asked,
    the failing one included, and what it raised. *)
Fixpoint attempts (p : peer) (h : list client_event) (ms : list session_call)
    : list session_call * option exn :=
  match ms with
  | [] => ([], None)
  | m :: ms' =>
      match on_call p h m with
      | inl e => ([m], Some e)
      | inr _ =>
          let (made, failure) := attempts p (h ++ [Call m]) ms' in
          (m :: made, failure)
      end
  end.

(** The answers received on the way, each with its request. *)
Fixpoint answers (p : peer) (h : list client_event) (ms : list session_call)
    : list (session_call * R) :=
  match ms with
  | [] => []
  | m :: ms' =>
      match on_call p h m with
      | inl _ => []
      | inr r => (m, r) :: answers p (h ++ [Call m]) ms'
      end
  end.

(** The label [run] prints before the answer to a request; the answer to
    [initialize] is not printed. *)
Definition label (m : session_call) : option string :=
  match m with
  | Initialize => None
  | ListPrompts => Some "prompts: "
  | ListResources => Some "resources: "
  | ListTools => Some "tools: "
  | CallTool _ _ => Some "search results:"
  end.

Definition labelled (mr : session_call * R) : option (string * R) :=
  (λ l, (l, mr.2)) <$> label mr.1.

(** What is leaving a block once its context manager has been exited:
    what [__aexit__] raised, nothing if it swallowed, else what was leaving
    before. *)
Definition still_leaving (exit_answer : exn + bool) (leaving : option exn) : option exn :=
  match exit_answer with
  | inl e' => Some e'
  | inr true => None
  | inr false => leaving
  end.

(** What a block ends in, given what is leaving it. *)
Definition ends_in (leaving : option exn) : outcome unit :=
  match leaving with
  | Some e => Raised e
  | None => Returned tt
  end.

End Client.

Arguments peer R : clear implicits.
Arguments client R : clear implicits.

(** * Vocabulary of the statements *)

(** The items of [data] with each location replaced by the object the store
    [h] holds there; [None] when some location holds none. *)
Definition resolve (h : gmap loc pyvalue) (data : list (string * loc))
    : option (list (string * pyvalue)) :=
  mapM (λ kl, pair kl.1 <$> h !! kl.2) data.

(** The call [make_responsive_request] makes for a token and a body. *)
Definition search_request (tok : option string) (body : pyvalue) : Request :=
  {| url := "https://app.rfpio.com/rfpserver/ext/v1/answer-lib/search";
     headers := [("Authorization", "Bearer " +:+ format_token tok);
                 ("Content-Type", "application/json")];
     json := body;
     timeout := 30 |}.

(** The object a parameter is bound to: the keyword argument if given, else
    the default object. *)
Definition bound_to (kwargs : gmap string loc) (n : string) : option loc :=
  (kwargs ∪ search_content_defaults) !! n.

(** A mapping is well formed when it gives [keyword] and names parameters
    only. *)
Definition valid_arguments (kwargs : gmap string loc) : Prop :=
  is_Some (kwargs !! "keyword") ∧ ∀ k, is_Some (kwargs !! k) → k ∈ parameter_names.

(** The entries [build] returns for a well-formed mapping: one per parameter,
    in the order of the signature, each with the object the parameter is
    bound to. *)
Definition bound_entries (kwargs : gmap string loc) (data : list (string * loc)) : Prop :=
  Forall2 (λ n kl, kl.1 = n ∧ bound_to kwargs n = Some kl.2) parameter_names data.

(** Every keyword argument names an object of the store. *)
Definition live (w : world) (kwargs : gmap string loc) : Prop :=
  ∀ k l, kwargs !! k = Some l → is_Some (objects w !! l).

(** The default objects hold what the [def] put in them. *)
Definition defaults_intact (w : world) : Prop :=
  ∀ n l v, (n, (l, v)) ∈ default_objects → objects w !! l = Some v.

(** The items a serialiser reads off [data] in the store [h]. *)
Definition resolves_to (h : gmap loc pyvalue) (data : list (string * loc))
    (items : list (string * pyvalue)) : Prop :=
  Forall2 (λ kl kv, kv.1 = kl.1 ∧ h !! kl.2 = Some kv.2) data items.

(** The store, the token and the registry of [w'] are those of [w]. *)
Definition frame (w w' : world) : Prop :=
  objects w' = objects w ∧ api_token w' = api_token w ∧ tools w' = tools w.

(** From [w] to [w'] the lines [lines] were printed and the calls [calls]
    issued, and nothing else happened. *)
Definition effects (w w' : world) (lines : list out_line) (calls : list Request) : Prop :=
  frame w w' ∧ stdout w' = stdout w ++ lines ∧ wire w' = wire w ++ calls.

(** The calls [make_responsive_request] adds to the wire. *)
Definition calls_made (tok : option string) (items : list (string * pyvalue))
    : list Request :=
  if truthy tok then [search_request tok (PyDict items)] else [].

(** A remote that would answer 200 with an empty object, were it asked. *)
Definition remote_ok : remote := λ _,
  PostReturns {| status_code := 200; text := "{}"; json_result := inl (PyDict []) |}.

(** Whatever the outbound call raises is an instance of [Exception]: what
    [post] raised, or what [json()] raised on a 2xx answer. *)
Definition raises_only_Exception (o : post_outcome) : Prop :=
  match o with
  | PostRaises e => is_Exception e = true
  | PostReturns r =>
      is_success r = true →
      ∀ c m, json_result r = inr (c, m) → issubclass c Exception = true
  end.

(** The server process started with a credential in its environment. *)
Definition started : world := import_module {[ "RESPONSIVE_API_TOKEN" := "secret" ]}.

(** A remote that answers 500. *)
Definition remote_500 : remote := λ _,
  PostReturns {| status_code := 500; text := "Internal Server Error";
                 json_result := inr (JSONDecodeError, "Expecting value") |}.

(** The answer 200 with the body [{"results": [], "cursor": "*"}]. *)
Definition empty_page : Response :=
  {| status_code := 200; text := "...";
     json_result := inl (PyDict [("results", PyList []); ("cursor", PyStr "*")]) |}.

(** The defaults the specification documents for the optional fields of a
    search request, grouped as its data model lists them. *)
Definition documented_defaults : list (string * pyvalue) :=
  ((λ f, (f, PyList [])) <$>
     ["approvers"; "businessUnits"; "collectionList"; "idsList"; "languageSearch";
      "lastUpdatedBy"; "owners"; "projectSearch"; "sectionSearch"; "tagSearch";
      "facetFields"])
  ++ [("cursor", PyStr "*"); ("customFields", PyDict []); ("flagFilter", PyStr "ALL")]
  ++ ((λ f, (f, PyBool false)) <$>
        ["hasAlertText"; "hasAttachment"; "hasImage"; "hasOpenComment"; "metadata"])
  ++ [("limit", PyInt 25); ("starRating", PyInt 0)].

Ltac elem_cases H :=
  repeat (apply elem_of_cons in H as [H | H]); [.. | by apply elem_of_nil in H].

Ltac solve_elem :=
  by repeat first [apply list_elem_of_here | apply list_elem_of_further].

(** The call of the repository's client: [arguments={"keyword": "conduct"}],
    the string being an object the caller made. *)
Definition client_world : world := allocate 100 (PyStr "conduct") started.
Definition client_arguments : gmap string loc := {[ "keyword" := 100 ]}.

(** The outbound call fails with an [Exception]: [post] raises one, the
    status is outside 2xx, or [json()] raises one on the body. *)
Definition outbound_failure (o : post_outcome) : Prop :=
  match o with
  | PostRaises e => is_Exception e = true
  | PostReturns r =>
      is_success r = false
      ∨ ∃ c m, json_result r = inr (c, m) ∧ issubclass c Exception = true
  end.

(** The answer 200 whose body is the mapping [{"error": "HTTP Error: 500"}]. *)
Definition error_shaped_page : Response :=
  {| status_code := 200; text := "...";
     json_result := inl (error_dict "HTTP Error: 500") |}.

(** A caller that gives the integer 5 for [keyword] and the integer 7 for
    the list parameter [approvers]. *)
Definition ill_typed_world : world := allocate 101 (PyInt 7) (allocate 100 (PyInt 5) started).
Definition ill_typed_arguments : gmap string loc := {[ "keyword" := 100; "approvers" := 101 ]}.

(** The list-typed fields of a search request, as the specification's data
    model lists them. *)
Definition list_typed_fields : list string :=
  ["approvers"; "businessUnits"; "collectionList"; "idsList"; "languageSearch";
   "lastUpdatedBy"; "owners"; "projectSearch"; "sectionSearch"; "tagSearch";
   "facetFields"].

(** A parameter passes the registry's check. *)
Definition passes (w : world) (kwargs : gmap string loc) (p : parameter) : Prop :=
  match kwargs !! p_name p with
  | Some l => ∃ v, objects w !! l = Some v ∧ conforms (p_annotation p) v = true
  | None => is_Some (p_default p)
  end.

(** The values given for the parameters, by name: what the caller passed,
    whichever objects hold it. *)
Definition given_values (w : world) (kwargs : gmap string loc) : gmap string pyvalue :=
  omap (λ l, objects w !! l) kwargs.

(** ** The server over time *)

(** The world with another credential in [api_token]. *)
Definition with_token (t : option string) (w : world) : world :=
  {| objects := objects w; api_token := t; tools := tools w;
     stdout := stdout w; wire := wire w |}.

(** What the server process goes through after [w0]: a caller makes an
    object at a location that holds none, or [search_content] is invoked
    and returns or raises.  The number counts the invocations. *)
Inductive run_from (w0 : world) : nat → world → Prop :=
| run_start : run_from w0 0 w0
| run_allocate n w l v :
    run_from w0 n w → objects w !! l = None → run_from w0 n (allocate l v w)
| run_call n w srv kwargs o w' :
    run_from w0 n w → search_content srv kwargs w = Some (o, w') →
    run_from w0 (S n) w'.

(** A call as [make_responsive_request] makes them for the credential [tok]. *)
Definition well_formed_call (tok : option string) (rq : Request) : Prop :=
  url rq = "https://app.rfpio.com/rfpserver/ext/v1/answer-lib/search"
  ∧ headers rq = [("Authorization", "Bearer " +:+ format_token tok);
                  ("Content-Type", "application/json")]
  ∧ timeout rq = 30%Z.

(** ** Example peers *)

(** A library that answers every request with the number of requests made
    before it, and whose context managers exit quietly. *)
Definition counting_peer : peer nat :=
  {| on_enter := λ h _, inr (length h);
     on_exit := λ _ _ _, inr false;
     on_call := λ h _, inr (length h) |}.

(** A client that has asked and printed nothing yet. *)
Definition fresh_client : client nat := {| history := []; shown := [] |}.

(** An environment of the client with the credential set. *)
Definition client_environ : gmap string string := {[ "RESPONSIVE_API_TOKEN" := "secret" ]}.

(** The stdio client for the server as [server_params] has it started when
    the credential in the client's environment is [tok]. *)
Definition launched (tok : string) : context_manager :=
  StdioClient {| command := "python3";
                 args := ["mcp_responsive.py"];
                 env := [("RESPONSIVE_API_TOKEN", tok)] |}.

(** * Verification *)

(** ** Running computations *)

Section Run.

Context {A B : Type}.
Implicit Types (m : M A) (k : A → M B) (w : world).

Lemma run_ret (a : A) w : ret a w = Some (Returned a, w).
Proof. reflexivity. Qed.

Lemma run_bind_returned m k w a w' :
  m w = Some (Returned a, w') → (m ≫= k) w = k a w'.
Proof. intros Hm. unfold mbind, M_bind, bind. by rewrite Hm. Qed.

Lemma run_bind_raised m k w e w' :
  m w = Some (Raised e, w') → (m ≫= k) w = Some (Raised e, w').
Proof. intros Hm. unfold mbind, M_bind, bind. by rewrite Hm. Qed.

Lemma run_bind_inv m k w o w2 :
  (m ≫= k) w = Some (o, w2) →
  (∃ a w1, m w = Some (Returned a, w1) ∧ k a w1 = Some (o, w2))
  ∨ (∃ e, m w = Some (Raised e, w2) ∧ o = Raised e).
Proof.
  unfold mbind, M_bind, bind.
  destruct (m w) as [[[a | e] w1] |] eqn:Hm; intros H; [left | right |]; try done.
  - by exists a, w1.
  - exists e. by simplify_eq.
Qed.

End Run.

(** ** The class hierarchy *)

(** Seven steps reach the root from every class: [mro] cuts nothing off. *)
Lemma mro_complete (c : pyclass) : last (mro c) = Some BaseException.
Proof. by destruct c. Qed.

Lemma issubclass_refl (c : pyclass) : issubclass c c = true.
Proof. by destruct c. Qed.

(** [RequestError] and [JSONDecodeError] are both under [Exception], and no
    class is under both. *)
Lemma RequestError_is_Exception (c : pyclass) :
  issubclass c RequestError = true → issubclass c Exception = true.
Proof. by destruct c. Qed.

Lemma JSONDecodeError_is_Exception (c : pyclass) :
  issubclass c JSONDecodeError = true → issubclass c Exception = true.
Proof. by destruct c. Qed.

Lemma RequestError_not_JSONDecodeError (c : pyclass) :
  issubclass c RequestError = true → issubclass c JSONDecodeError = false.
Proof. by destruct c. Qed.

(** ** Serialisation reads the store and changes nothing *)

Lemma dump_items_run (data : list (string * loc)) (w : world) :
  dump_items data w = (λ items, (Returned items, w)) <$> resolve (objects w) data.
Proof.
  induction data as [| [k l] rest IH]; [done |].
  unfold resolve in *. cbn [dump_items mapM fst snd].
  unfold mbind at 1, M_bind, bind, deref.
  destruct (objects w !! l) as [v |]; [| done]. simpl.
  unfold mbind at 1, M_bind, bind. rewrite IH.
  by destruct (mapM _ rest).
Qed.

Lemma json_dumps_run (data : list (string * loc)) (w : world) :
  json_dumps data w
  = (λ items, (Returned (PyDict items), w)) <$> resolve (objects w) data.
Proof.
  unfold json_dumps, mbind, M_bind, bind. rewrite dump_items_run.
  by destruct (resolve _ data).
Qed.

(** ** The handlers *)

Lemma handlers_RequestError (e : exn) (w : world) :
  is_RequestError e = true →
  handlers e w
  = Some (Returned (error_dict ("Error communicating with Responsive API: " +:+ str e)),
          printed (Line ("Error during request: " +:+ str e)) w).
Proof. intros He. unfold handlers. by rewrite He. Qed.

Lemma handlers_HTTPStatusError (m : string) (r : Response) (w : world) :
  handlers (HTTPStatusError m r) w
  = Some (Returned (error_dict ("HTTP Error: " +:+ pretty (status_code r))),
          printed (Line ("HTTP Error: " +:+ pretty (status_code r) +:+ ", " +:+ text r)) w).
Proof. reflexivity. Qed.

Lemma handlers_JSONDecodeError (c : pyclass) (m : string) (w : world) :
  issubclass c JSONDecodeError = true →
  handlers (PyExn c m) w
  = Some (Returned (error_dict "Invalid JSON response from server"),
          printed (Line ("JSON Decode Error: " +:+ m)) w).
Proof.
  intros Hc. unfold handlers. cbn [is_RequestError is_JSONDecodeError].
  destruct (issubclass c RequestError) eqn:Hr.
  - apply RequestError_not_JSONDecodeError in Hr. congruence.
  - by rewrite Hc.
Qed.

Lemma handlers_Exception (c : pyclass) (m : string) (w : world) :
  issubclass c RequestError = false →
  issubclass c JSONDecodeError = false →
  issubclass c Exception = true →
  handlers (PyExn c m) w
  = Some (Returned (error_dict ("An unexpected error occurred: " +:+ m)),
          printed (Line ("An unexpected error occurred: " +:+ m)) w).
Proof.
  intros Hr Hj He. unfold handlers.
  cbn [is_RequestError is_JSONDecodeError is_Exception]. by rewrite Hr, Hj, He.
Qed.

Lemma handlers_pass (c : pyclass) (m : string) (w : world) :
  issubclass c Exception = false →
  handlers (PyExn c m) w = Some (Raised (PyExn c m), w).
Proof.
  intros He. unfold handlers.
  cbn [is_RequestError is_JSONDecodeError is_Exception].
  destruct (issubclass c RequestError) eqn:Hr.
  { apply RequestError_is_Exception in Hr. congruence. }
  destruct (issubclass c JSONDecodeError) eqn:Hj.
  { apply JSONDecodeError_is_Exception in Hj. congruence. }
  by rewrite He.
Qed.

(** A handler that catches returns the mapping [{"error": msg}] with a
    message that is not empty, and prints one line; nothing else of the
    world changes. *)
Lemma handlers_catch (e : exn) (w : world) :
  is_Exception e = true →
  ∃ msg line, handlers e w = Some (Returned (error_dict msg), printed line w) ∧ msg ≠ "".
Proof.
  destruct e as [m r | c m]; intros He.
  - eexists _, _. split; [apply handlers_HTTPStatusError | done].
  - cbn in He.
    destruct (issubclass c RequestError) eqn:Hr.
    { eexists _, _. split; [by apply handlers_RequestError | done]. }
    destruct (issubclass c JSONDecodeError) eqn:Hj.
    { eexists _, _. split; [by apply handlers_JSONDecodeError | done]. }
    eexists _, _. split; [by apply handlers_Exception | done].
Qed.

(** ** [make_responsive_request], case by case *)

Lemma request_without_token (srv : remote) (data : list (string * loc)) (w : world) :
  truthy (api_token w) = false →
  make_responsive_request srv data w
  = Some (Raised (PyExn Exception "RESPONSIVE_API_TOKEN environment variable not set"), w).
Proof.
  intros Htok. unfold make_responsive_request, get_api_token, mbind, M_bind, bind.
  by rewrite Htok.
Qed.

Lemma client_post_run (srv : remote) (u : string) (hs : list (string * string))
    (data : list (string * loc)) (t : Z) (w : world) (items : list (string * pyvalue)) :
  resolve (objects w) data = Some items →
  let rq := {| url := u; headers := hs; json := PyDict items; timeout := t |} in
  client_post srv u hs data t w
  = match srv rq with
    | PostRaises e => Some (Raised e, sent rq w)
    | PostReturns r => Some (Returned r, sent rq w)
    end.
Proof.
  intros Hitems rq. unfold client_post.
  erewrite run_bind_returned; [| by rewrite json_dumps_run, Hitems].
  reflexivity.
Qed.

(** With a token, the body is serialised, one call goes out, and the answer
    decides the rest. *)
Lemma request_with_token (srv : remote) (data : list (string * loc)) (w : world)
    (items : list (string * pyvalue)) :
  truthy (api_token w) = true →
  resolve (objects w) data = Some items →
  let rq := search_request (api_token w) (PyDict items) in
  make_responsive_request srv data w
  = match srv rq with
    | PostRaises e => handlers e (sent rq w)
    | PostReturns r =>
        if is_success r then
          match json_result r with
          | inl v => Some (Returned v, sent rq w)
          | inr (c, m) => handlers (PyExn c m) (sent rq w)
          end
        else handlers (HTTPStatusError ("HTTP status " +:+ pretty (status_code r)) r)
                      (sent rq w)
    end.
Proof.
  intros Htok Hitems rq.
  unfold make_responsive_request.
  erewrite run_bind_returned; [| reflexivity].
  rewrite Htok. cbn [negb]. unfold try_except.
  pose proof (client_post_run srv (url rq) (headers rq) data 30 w items Hitems) as Hpost.
  cbn zeta in Hpost. change {| url := _; headers := _; json := _; timeout := _ |}
    with rq in Hpost.
  destruct (srv rq) as [e | r].
  { by erewrite run_bind_raised. }
  erewrite run_bind_returned; [| exact Hpost].
  unfold raise_for_status. destruct (is_success r).
  - erewrite run_bind_returned; [| reflexivity].
    unfold response_json. by destruct (json_result r) as [v | [c m]].
  - by erewrite run_bind_raised.
Qed.

(** ** Argument binding and the [data] display *)

Lemma bound_to_given kwargs n l : kwargs !! n = Some l → bound_to kwargs n = Some l.
Proof. intros H. unfold bound_to. by apply lookup_union_Some_l. Qed.

Lemma bound_to_omitted kwargs n :
  kwargs !! n = None → bound_to kwargs n = search_content_defaults !! n.
Proof. intros H. unfold bound_to. by apply lookup_union_r. Qed.

Lemma bind_parameters_returned (ps : list parameter) (kwargs : gmap string loc) :
  Forall (λ p, is_Some (bound_to kwargs (p_name p))) ps →
  ∃ locals, bind_parameters ps kwargs = Returned locals
            ∧ Forall (λ p, locals !! p_name p = bound_to kwargs (p_name p)) ps.
Proof.
  induction 1 as [| p ps [l Hl] _ (locals & IH & Hlocals)]; [by exists ∅ |].
  exists (<[p_name p := l]> locals). cbn [bind_parameters]. rewrite IH. split.
  - destruct (kwargs !! p_name p) as [l' |] eqn:Hk.
    + by rewrite (bound_to_given _ _ _ Hk) in Hl; simplify_eq.
    + rewrite (bound_to_omitted _ _ Hk) in Hl. by rewrite Hl.
  - constructor; [by rewrite lookup_insert_eq |].
    eapply Forall_impl; [exact Hlocals |]. intros q Hq. cbn beta in *.
    destruct (decide (p_name p = p_name q)) as [Heq | Hne].
    + by rewrite <- Heq, lookup_insert_eq.
    + by rewrite lookup_insert_ne.
Qed.

Lemma dict_display_run (entries : list (string * string)) (locals : gmap string loc)
    (data : list (string * loc)) (w : world) :
  Forall2 (λ kx kl, kl.1 = kx.1 ∧ locals !! kx.2 = Some kl.2) entries data →
  dict_display entries locals w = Some (Returned data, w).
Proof.
  induction 1 as [| [k x] [k' l] rest data [Hk Hx] _ IH]; [done |].
  cbn in Hk, Hx. subst k'. cbn [dict_display]. unfold var. rewrite Hx.
  erewrite run_bind_returned; [| reflexivity].
  erewrite run_bind_returned; [| exact IH].
  reflexivity.
Qed.

Lemma filter_none {A} (P : A → Prop) `{∀ x, Decision (P x)} (l : list A) :
  Forall (λ x, ¬ P x) l → filter P l = [].
Proof. induction 1 as [| x l Hx _ IH]; [done |]. by rewrite filter_cons_False. Qed.

Lemma valid_nothing_unexpected kwargs : valid_arguments kwargs → unexpected kwargs = [].
Proof.
  intros [_ Hkeys]. unfold unexpected.
  apply filter_none, Forall_forall. intros k Hk Hnot. apply Hnot.
  apply list_elem_of_fmap in Hk as ([k' l] & -> & Hin).
  apply elem_of_map_to_list in Hin. apply Hkeys. by exists l.
Qed.

(** Every parameter but [keyword] has a default object. *)
Lemma defaults_cover_signature :
  Forall (λ p, p_name p = "keyword" ∨ is_Some (search_content_defaults !! p_name p))
         search_content_signature.
Proof.
  unfold search_content_signature.
  repeat (constructor; [first [by left | right; vm_compute; by eexists] |]).
  constructor.
Qed.

Lemma every_parameter_bound kwargs :
  is_Some (kwargs !! "keyword") →
  Forall (λ p, is_Some (bound_to kwargs (p_name p))) search_content_signature.
Proof.
  intros [l Hl]. eapply Forall_impl; [exact defaults_cover_signature |].
  intros p [-> | Hd]; cbn beta.
  { exists l. by apply bound_to_given. }
  destruct (kwargs !! p_name p) as [l' |] eqn:Hk.
  - exists l'. by apply bound_to_given.
  - by rewrite (bound_to_omitted _ _ Hk).
Qed.

Lemma build_valid (kwargs : gmap string loc) (w : world) :
  valid_arguments kwargs →
  ∃ data, bound_entries kwargs data ∧ build kwargs w = Some (Returned data, w).
Proof.
  intros Hvalid. pose proof Hvalid as [Hkw _].
  pose proof (every_parameter_bound _ Hkw) as Hall.
  destruct (bind_parameters_returned _ kwargs Hall) as (locals & Hbind & Hlocals).
  assert (∃ data, bound_entries kwargs data) as [data Hdata].
  { unfold bound_entries, parameter_names. clear -Hall.
    induction Hall as [| p ps [l Hl] _ [data IH]]; [by exists [] |].
    exists ((p_name p, l) :: data). by constructor. }
  exists data. split; [done |].
  unfold build, bind_arguments. rewrite (valid_nothing_unexpected _ Hvalid), Hbind.
  erewrite run_bind_returned; [| reflexivity].
  apply dict_display_run.
  change data_display with ((λ n, (n, n)) <$> parameter_names).
  apply Forall2_fmap_l. unfold bound_entries, parameter_names in *.
  apply Forall2_fmap_l in Hdata. apply Forall2_fmap_l.
  clear -Hdata Hlocals. induction Hdata as [| p kl ps data [Hk Hl] _ IH]; [done |].
  apply Forall_cons in Hlocals as [Hp Hps]. constructor; [| by apply IH].
  cbn in *. split; [done |]. by rewrite Hp.
Qed.

Lemma dict_display_pure (entries : list (string * string)) (locals : gmap string loc) :
  ∃ o, ∀ w, dict_display entries locals w = Some (o, w).
Proof.
  induction entries as [| [k x] rest [o IH]]; [by eexists |].
  cbn [dict_display]. unfold var. destruct (locals !! x) as [l |].
  - destruct o as [ls | e].
    + eexists. intros w. erewrite run_bind_returned; [| reflexivity].
      erewrite run_bind_returned; [| apply IH]. reflexivity.
    + eexists. intros w. erewrite run_bind_returned; [| reflexivity].
      erewrite run_bind_raised; [| apply IH]. reflexivity.
  - eexists. intros w. by erewrite run_bind_raised.
Qed.

(** [build] neither reads nor changes the world. *)
Lemma build_pure (kwargs : gmap string loc) : ∃ o, ∀ w, build kwargs w = Some (o, w).
Proof.
  unfold build, bind_arguments. destruct (unexpected kwargs) as [| k ?].
  - destruct (bind_parameters _ kwargs) as [locals | e].
    + destruct (dict_display_pure data_display locals) as [o Ho].
      exists o. intros w. by erewrite run_bind_returned.
    + eexists. intros w. by erewrite run_bind_raised.
  - eexists. intros w. by erewrite run_bind_raised.
Qed.

Lemma bind_parameters_missing (p : parameter) (ps : list parameter)
    (kwargs : gmap string loc) :
  kwargs !! p_name p = None →
  search_content_defaults !! p_name p = None →
  bind_parameters (p :: ps) kwargs
  = Raised (PyExn TypeError
      ("search_content() missing 1 required positional argument: '"
         +:+ p_name p +:+ "'")).
Proof. intros Hk Hd. cbn [bind_parameters]. by rewrite Hk, Hd. Qed.

(** Without [keyword] no request is built: the call is a [TypeError]. *)
Lemma build_without_keyword (kwargs : gmap string loc) :
  kwargs !! "keyword" = None →
  ∃ msg, ∀ w, build kwargs w = Some (Raised (PyExn TypeError msg), w).
Proof.
  intros Hk. unfold build, bind_arguments. destruct (unexpected kwargs) as [| k ?].
  - unfold search_content_signature.
    rewrite bind_parameters_missing; [| exact Hk | by vm_compute].
    eexists. intros w. by erewrite run_bind_raised.
  - eexists. intros w. by erewrite run_bind_raised.
Qed.

(** ** The store: argument objects and default objects *)

Lemma default_object_of (n : string) (l : loc) :
  search_content_defaults !! n = Some l → ∃ v, (n, (l, v)) ∈ default_objects.
Proof.
  intros H. apply elem_of_list_to_map_2 in H.
  apply list_elem_of_fmap in H as ([n' [l' v]] & Heq & Hin).
  cbn in Heq. simplify_eq. by exists v.
Qed.

Lemma import_defaults_intact (environ : gmap string string) :
  defaults_intact (import_module environ).
Proof.
  intros n l v Hin. cbn [import_module register objects].
  apply elem_of_list_to_map_1.
  - apply (bool_decide_unpack _). by vm_compute.
  - apply list_elem_of_fmap. by exists (n, (l, v)).
Qed.

Lemma resolve_Some h data items : resolve h data = Some items ↔ resolves_to h data items.
Proof.
  unfold resolve, resolves_to. rewrite mapM_Some.
  split; intros H; (eapply Forall2_impl; [exact H |]); intros [k l] [k' v]; cbn.
  - rewrite fmap_Some. intros (v' & Hv & Heq). by simplify_eq.
  - intros [-> Hv]. by rewrite Hv.
Qed.

Lemma bound_entries_resolve (w : world) (kwargs : gmap string loc)
    (data : list (string * loc)) :
  live w kwargs → defaults_intact w → bound_entries kwargs data →
  ∃ items, resolve (objects w) data = Some items.
Proof.
  intros Hlive Hintact Hdata. apply mapM_is_Some, Forall_forall.
  intros [n l] Hin. cbn.
  unfold bound_entries in Hdata.
  apply list_elem_of_lookup in Hin as [i Hi].
  destruct (Forall2_lookup_r _ _ _ _ _ Hdata Hi) as (n' & _ & Hn & Hb).
  cbn in Hn, Hb. subst n'.
  destruct (kwargs !! n) as [l' |] eqn:Hk.
  - rewrite (bound_to_given _ _ _ Hk) in Hb. simplify_eq.
    destruct (Hlive _ _ Hk) as [v ->]. by eexists.
  - rewrite (bound_to_omitted _ _ Hk) in Hb.
    destruct (default_object_of _ _ Hb) as [v Hv].
    rewrite (Hintact _ _ _ Hv). by eexists.
Qed.

(** ** What a call leaves alone *)

Lemma effects_refl (w : world) : effects w w [] [].
Proof. unfold effects, frame. by rewrite !app_nil_r. Qed.

Lemma effects_printed (l : out_line) (w : world) : effects w (printed l w) [l] [].
Proof. unfold effects, frame. cbn. by rewrite app_nil_r. Qed.

Lemma effects_sent (rq : Request) (w : world) : effects w (sent rq w) [] [rq].
Proof. unfold effects, frame. cbn. by rewrite app_nil_r. Qed.

Lemma effects_trans (w0 w1 w2 : world) l1 l2 c1 c2 :
  effects w0 w1 l1 c1 → effects w1 w2 l2 c2 → effects w0 w2 (l1 ++ l2) (c1 ++ c2).
Proof.
  intros ((Ho1 & Ha1 & Ht1) & Hs1 & Hw1) ((Ho2 & Ha2 & Ht2) & Hs2 & Hw2).
  unfold effects, frame. rewrite Ho2, Ha2, Ht2, Hs2, Hw2, Hs1, Hw1, !app_assoc.
  done.
Qed.

Lemma handlers_effects (e : exn) (w : world) :
  ∃ o w' lines, handlers e w = Some (o, w') ∧ effects w w' lines [].
Proof.
  destruct (is_Exception e) eqn:He.
  - destruct (handlers_catch e w He) as (msg & line & -> & _).
    eexists _, _, _. split; [done | apply effects_printed].
  - destruct e as [m r | c m]; [done |]. rewrite (handlers_pass c m w He).
    eexists _, _, _. split; [done | apply effects_refl].
Qed.

(** [make_responsive_request] returns or raises for every answer of the
    environment, and issues [calls_made]: one call with a credential, none
    without. *)
Lemma request_total (srv : remote) (data : list (string * loc)) (w : world)
    (items : list (string * pyvalue)) :
  resolve (objects w) data = Some items →
  ∃ o w' lines, make_responsive_request srv data w = Some (o, w')
                ∧ effects w w' lines (calls_made (api_token w) items).
Proof.
  intros Hitems. unfold calls_made. destruct (truthy (api_token w)) eqn:Htok.
  - rewrite (request_with_token srv data w items Htok Hitems). cbn zeta.
    set (rq := search_request _ _).
    assert (∀ e, ∃ o w' lines, handlers e (sent rq w) = Some (o, w')
                               ∧ effects w w' lines [rq]) as Hh.
    { intros e. destruct (handlers_effects e (sent rq w)) as (o & w' & lines & -> & He).
      exists o, w', lines. split; [done |].
      apply (effects_trans _ _ _ [] _ [rq] [] (effects_sent rq w) He). }
    destruct (srv rq) as [e | r]; [apply Hh |].
    destruct (is_success r); [| apply Hh].
    destruct (json_result r) as [v | [c m]]; [| apply Hh].
    eexists _, _, _. split; [done | apply effects_sent].
  - rewrite (request_without_token srv data w Htok). eexists _, _, _.
    split; [done | apply effects_refl].
Qed.

Lemma search_content_run (srv : remote) (kwargs : gmap string loc) (w : world)
    (data : list (string * loc)) (items : list (string * pyvalue)) :
  build kwargs w = Some (Returned data, w) →
  resolve (objects w) data = Some items →
  search_content srv kwargs w
  = make_responsive_request srv data (printed (SearchData (PyDict items)) w).
Proof.
  intros Hbuild Hitems. unfold search_content.
  erewrite run_bind_returned; [| exact Hbuild].
  erewrite run_bind_returned; [| by rewrite json_dumps_run, Hitems].
  by erewrite run_bind_returned.
Qed.

(** * The claims *)

(** ** C1: a missing credential *)

(** C1, as amended.  When no bearer credential is configured
    ([RESPONSIVE_API_TOKEN] absent, or empty), [make_responsive_request]
    raises [Exception("RESPONSIVE_API_TOKEN environment variable not set")]
    before any network attempt: the world it leaves is the one it found, so
    nothing went on the wire and nothing was printed.  The failure is raised,
    not returned as a value. *)
Theorem missing_credential_raises (srv : remote) (data : list (string * loc)) (w : world) :
  truthy (api_token w) = false →
  make_responsive_request srv data w
  = Some (Raised (PyExn Exception "RESPONSIVE_API_TOKEN environment variable not set"), w)
  ∧ is_Exception (PyExn Exception "RESPONSIVE_API_TOKEN environment variable not set") = true.
Proof. intros Htok. split; [by apply request_without_token | done]. Qed.

Lemma missing_credential_raises_witness :
  truthy (api_token (import_module ∅)) = false
  ∧ make_responsive_request remote_ok [] (import_module ∅)
    = Some (Raised (PyExn Exception "RESPONSIVE_API_TOKEN environment variable not set"),
            import_module ∅).
Proof.
  split; [reflexivity |].
  apply (missing_credential_raises remote_ok [] (import_module ∅)). reflexivity.
Defined.

(** C1, as stated, fails: started with no [RESPONSIVE_API_TOKEN] in the
    environment, a request does not come back as a returned value of any
    kind; it raises. *)
Lemma missing_credential_not_returned :
  make_responsive_request remote_ok [] (import_module ∅)
  = Some (Raised (PyExn Exception "RESPONSIVE_API_TOKEN environment variable not set"),
          import_module ∅)
  ∧ ¬ ∃ v w', make_responsive_request remote_ok [] (import_module ∅)
              = Some (Returned v, w').
Proof.
  assert (make_responsive_request remote_ok [] (import_module ∅)
          = Some (Raised (PyExn Exception
                    "RESPONSIVE_API_TOKEN environment variable not set"),
                  import_module ∅)) as H by by apply request_without_token.
  split; [exact H |]. intros (v & w' & Hv). rewrite H in Hv. discriminate.
Qed.

(** ** C2: failures of the outbound call *)

Lemma is_success_spec (r : Response) :
  is_success r = true ↔ (200 ≤ status_code r ≤ 299)%Z.
Proof. unfold is_success. apply bool_decide_eq_true. Qed.

(** C2, as amended.  With a credential configured, every failure of the
    outbound call that is an instance of [Exception] is returned as the
    mapping [{"error": message}] (the mapping has no field for a kind: the
    message tells it):
    - a network-level failure ([httpx.RequestError]: connection refused,
      timeout, DNS) gives "Error communicating with Responsive API: " and
      the cause;
    - a status outside 2xx gives "HTTP Error: " and the status code;
    - a body [json()] cannot decode gives "Invalid JSON response from server";
    - any other [Exception] gives "An unexpected error occurred: " and the
      cause;
    and in all of these nothing is raised. *)
Theorem outbound_failures_are_returned (srv : remote) (data : list (string * loc))
    (w : world) (items : list (string * pyvalue)) :
  truthy (api_token w) = true →
  resolve (objects w) data = Some items →
  let rq := search_request (api_token w) (PyDict items) in
  let run := make_responsive_request srv data w in
  (∀ c m, srv rq = PostRaises (PyExn c m) → issubclass c RequestError = true →
     run = Some (Returned (error_dict ("Error communicating with Responsive API: " +:+ m)),
                 printed (Line ("Error during request: " +:+ m)) (sent rq w)))
  ∧ (∀ r, srv rq = PostReturns r → ¬ (200 ≤ status_code r ≤ 299)%Z →
       run = Some (Returned (error_dict ("HTTP Error: " +:+ pretty (status_code r))),
                   printed (Line ("HTTP Error: " +:+ pretty (status_code r)
                                    +:+ ", " +:+ text r)) (sent rq w)))
  ∧ (∀ r c m, srv rq = PostReturns r → (200 ≤ status_code r ≤ 299)%Z →
       json_result r = inr (c, m) → issubclass c JSONDecodeError = true →
       run = Some (Returned (error_dict "Invalid JSON response from server"),
                   printed (Line ("JSON Decode Error: " +:+ m)) (sent rq w)))
  ∧ (∀ c m,
       srv rq = PostRaises (PyExn c m)
       ∨ (∃ r, srv rq = PostReturns r ∧ (200 ≤ status_code r ≤ 299)%Z
               ∧ json_result r = inr (c, m)) →
       issubclass c Exception = true →
       issubclass c RequestError = false →
       issubclass c JSONDecodeError = false →
       run = Some (Returned (error_dict ("An unexpected error occurred: " +:+ m)),
                   printed (Line ("An unexpected error occurred: " +:+ m)) (sent rq w)))
  ∧ (raises_only_Exception (srv rq) → ∃ v w', run = Some (Returned v, w')).
Proof.
  intros Htok Hitems rq run.
  pose proof (request_with_token srv data w items Htok Hitems) as Hrun.
  cbn zeta in Hrun. fold rq run in Hrun.
  repeat split.
  - intros c m Hsrv Hc. rewrite Hrun, Hsrv. by apply handlers_RequestError.
  - intros r Hsrv Hstatus. rewrite Hrun, Hsrv.
    destruct (is_success r) eqn:Hs; [by apply is_success_spec in Hs |].
    apply handlers_HTTPStatusError.
  - intros r c m Hsrv Hstatus Hjson Hc. rewrite Hrun, Hsrv.
    apply is_success_spec in Hstatus. rewrite Hstatus, Hjson.
    by apply handlers_JSONDecodeError.
  - intros c m [Hsrv | (r & Hsrv & Hstatus & Hjson)] He Hr Hj; rewrite Hrun, Hsrv.
    + by apply handlers_Exception.
    + apply is_success_spec in Hstatus. rewrite Hstatus, Hjson.
      by apply handlers_Exception.
  - intros Hord. rewrite Hrun. unfold raises_only_Exception in Hord.
    destruct (srv rq) as [e | r].
    { destruct (handlers_catch e (sent rq w) Hord) as (msg & line & -> & _).
      by eexists _, _. }
    destruct (is_success r) eqn:Hs.
    + destruct (json_result r) as [v | [c m]] eqn:Hjson; [by eexists _, _ |].
      destruct (handlers_catch (PyExn c m) (sent rq w)) as (msg & line & -> & _);
        [by eapply Hord | by eexists _, _].
    + rewrite handlers_HTTPStatusError. by eexists _, _.
Qed.

Lemma outbound_failures_are_returned_witness :
  fst <$> make_responsive_request remote_500 [] started
  = Some (Returned (error_dict "HTTP Error: 500")).
Proof.
  pose proof (outbound_failures_are_returned remote_500 [] started []) as H.
  destruct H as (_ & Hstatus & _); [by vm_compute | reflexivity |].
  cbn zeta in Hstatus.
  rewrite (Hstatus (Build_Response 500 "Internal Server Error"
                      (inr (JSONDecodeError, "Expecting value"))) eq_refl).
  - by vm_compute.
  - cbn. lia.
Defined.

(** C2, as stated, fails twice over: with no credential the request raises,
    and with one an exception outside [Exception] (here the cancellation of
    the awaiting task) passes every handler and leaves the function. *)
Lemma failure_can_escape :
  fst <$> make_responsive_request remote_ok [] (import_module ∅)
  = Some (Raised (PyExn Exception "RESPONSIVE_API_TOKEN environment variable not set"))
  ∧ fst <$> make_responsive_request (λ _, PostRaises (PyExn CancelledError "")) [] started
    = Some (Raised (PyExn CancelledError "")).
Proof. split; by vm_compute. Qed.

(** ** C4: a successful answer *)

(** C4.  When the remote endpoint answers a request with a 2xx status and a
    body [json()] parses to [v], [make_responsive_request] returns [v]
    itself: one call went out, nothing was printed, nothing else was
    asked. *)
Theorem success_returns_body_verbatim (srv : remote) (data : list (string * loc))
    (w : world) (items : list (string * pyvalue)) (r : Response) (v : pyvalue) :
  truthy (api_token w) = true →
  resolve (objects w) data = Some items →
  srv (search_request (api_token w) (PyDict items)) = PostReturns r →
  (200 ≤ status_code r ≤ 299)%Z →
  json_result r = inl v →
  make_responsive_request srv data w
  = Some (Returned v, sent (search_request (api_token w) (PyDict items)) w).
Proof.
  intros Htok Hitems Hsrv Hstatus Hjson.
  rewrite (request_with_token srv data w items Htok Hitems). cbn zeta.
  apply is_success_spec in Hstatus. by rewrite Hsrv, Hstatus, Hjson.
Qed.

Lemma success_returns_body_verbatim_witness :
  fst <$> make_responsive_request (λ _, PostReturns empty_page) [] started
  = Some (Returned (PyDict [("results", PyList []); ("cursor", PyStr "*")])).
Proof.
  rewrite (success_returns_body_verbatim (λ _, PostReturns empty_page) [] started []
             empty_page (PyDict [("results", PyList []); ("cursor", PyStr "*")])).
  - reflexivity.
  - by vm_compute.
  - reflexivity.
  - reflexivity.
  - cbn. lia.
  - reflexivity.
Defined.

(** ** C5: every field, with its default *)

(** Each documented default is the default object of its parameter. *)
Lemma documented_default_object (f : string) (d : pyvalue) :
  (f, d) ∈ documented_defaults →
  f ∈ parameter_names
  ∧ ∃ l, search_content_defaults !! f = Some l ∧ (f, (l, d)) ∈ default_objects.
Proof.
  intros H. unfold documented_defaults in H. cbn in H.
  elem_cases H; simplify_eq;
    (split; [unfold parameter_names, search_content_signature; cbn; solve_elem |]);
    eexists; (split; [by vm_compute |]);
    unfold default_objects, search_content_signature; cbn; solve_elem.
Qed.

Lemma Forall2_fmap_eq {X Y} (f : Y → X) (l : list X) (k : list Y) :
  Forall2 (λ x y, f y = x) l k → f <$> k = l.
Proof. induction 1 as [| x y l k Hxy _ IH]; [done |]. cbn. by rewrite Hxy, IH. Qed.

(** The item a serialiser reads for a parameter. *)
Lemma bound_item (kwargs : gmap string loc) (h : gmap loc pyvalue)
    (data : list (string * loc)) (items : list (string * pyvalue))
    (n : string) (l : loc) (v : pyvalue) :
  bound_entries kwargs data → resolves_to h data items →
  n ∈ parameter_names → bound_to kwargs n = Some l → h !! l = Some v →
  (n, v) ∈ items.
Proof.
  intros Hb Hr Hn Hl Hv. apply list_elem_of_lookup in Hn as [i Hi].
  destruct (Forall2_lookup_l _ _ _ _ _ Hb Hi) as ([k l'] & Hdata & Hk & Hl').
  destruct (Forall2_lookup_l _ _ _ _ _ Hr Hdata) as ([k' v'] & Hitems & Hk' & Hv').
  cbn in *. simplify_eq. apply list_elem_of_lookup. by exists i.
Qed.

Lemma items_keys (kwargs : gmap string loc) (h : gmap loc pyvalue)
    (data : list (string * loc)) (items : list (string * pyvalue)) :
  bound_entries kwargs data → resolves_to h data items → items.*1 = parameter_names.
Proof.
  intros Hb Hr. apply Forall2_fmap_eq.
  unfold bound_entries, resolves_to in *.
  revert items Hr. induction Hb as [| n kl ns data [Hk _] _ IH]; intros items Hr.
  - by apply Forall2_nil_inv_l in Hr as ->.
  - apply Forall2_cons_inv_l in Hr as (kv & items' & [Hkv _] & Hr & ->).
    constructor; [congruence | by apply IH].
Qed.

(** C5.  For every well-formed argument mapping (it gives [keyword] and names
    parameters only, whichever optional ones it leaves out), in a store where
    the arguments are objects and the default objects are as the [def] left
    them: [build] returns, and the mapping serialised from its result has
    exactly the declared parameters as keys, in the declared order; every
    omitted field holds its documented default (limit 25, flagFilter ALL,
    cursor "*", starRating 0, booleans false, lists empty, customFields the
    empty mapping) and every given field the object given.  With a credential
    configured, that mapping is the body of the call that goes out. *)
Theorem build_fills_every_field (kwargs : gmap string loc) (w : world) :
  valid_arguments kwargs → live w kwargs → defaults_intact w →
  ∃ data items,
    build kwargs w = Some (Returned data, w)
    ∧ json_dumps data w = Some (Returned (PyDict items), w)
    ∧ items.*1 = p_name <$> t_parameters search_content_tool
    ∧ (∀ f d, (f, d) ∈ documented_defaults → kwargs !! f = None → (f, d) ∈ items)
    ∧ (∀ f l v, kwargs !! f = Some l → objects w !! l = Some v → (f, v) ∈ items)
    ∧ (truthy (api_token w) = true →
       ∀ srv, ∃ o w', search_content srv kwargs w = Some (o, w')
                      ∧ wire w' = wire w ++ [search_request (api_token w) (PyDict items)]).
Proof.
  intros Hvalid Hlive Hintact.
  destruct (build_valid kwargs w Hvalid) as (data & Hbound & Hbuild).
  destruct (bound_entries_resolve w kwargs data Hlive Hintact Hbound) as [items Hres].
  pose proof (proj1 (resolve_Some _ _ _) Hres) as Hitems.
  exists data, items. repeat split.
  - exact Hbuild.
  - by rewrite json_dumps_run, Hres.
  - by eapply items_keys.
  - intros f d Hdoc Hk.
    destruct (documented_default_object f d Hdoc) as (Hf & l & Hl & Hobj).
    apply (bound_item kwargs (objects w) data items f l d Hbound Hitems Hf).
    + by rewrite bound_to_omitted.
    + by eapply Hintact.
  - intros f l v Hk Hv.
    apply (bound_item kwargs (objects w) data items f l v Hbound Hitems).
    + apply Hvalid. by exists l.
    + by apply bound_to_given.
    + done.
  - intros Htok srv. rewrite (search_content_run srv kwargs w data items Hbuild Hres).
    destruct (request_total srv data (printed (SearchData (PyDict items)) w) items Hres)
      as (o & w' & lines & -> & _ & _ & Hwire).
    exists o, w'. split; [done |]. rewrite Hwire. unfold calls_made. cbn.
    by rewrite Htok.
Qed.

Lemma client_arguments_valid : valid_arguments client_arguments.
Proof.
  split; [by eexists |]. intros k [l Hk]. unfold client_arguments in Hk.
  apply lookup_singleton_Some in Hk as [<- _].
  unfold parameter_names, search_content_signature. cbn. solve_elem.
Qed.

Lemma client_arguments_live : live client_world client_arguments.
Proof.
  intros k l Hk. unfold client_arguments in Hk.
  apply lookup_singleton_Some in Hk as [_ <-]. by eexists.
Qed.

Lemma allocate_defaults_intact (l : loc) (v : pyvalue) (w : world) :
  objects w !! l = None → defaults_intact w → defaults_intact (allocate l v w).
Proof.
  intros Hfree Hintact n l' v' Hin. cbn. rewrite lookup_insert_ne; [by eapply Hintact |].
  intros ->. by rewrite (Hintact _ _ _ Hin) in Hfree.
Qed.

Lemma client_world_intact : defaults_intact client_world.
Proof.
  apply allocate_defaults_intact; [by vm_compute | apply import_defaults_intact].
Qed.

Lemma build_fills_every_field_witness :
  ∃ data items,
    build client_arguments client_world = Some (Returned data, client_world)
    ∧ json_dumps data client_world = Some (Returned (PyDict items), client_world)
    ∧ items.*1 = p_name <$> t_parameters search_content_tool
    ∧ (∀ f d, (f, d) ∈ documented_defaults → client_arguments !! f = None → (f, d) ∈ items)
    ∧ (∀ f l v, client_arguments !! f = Some l → objects client_world !! l = Some v →
                (f, v) ∈ items)
    ∧ (truthy (api_token client_world) = true →
       ∀ srv, ∃ o w', search_content srv client_arguments client_world = Some (o, w')
                      ∧ wire w' = wire client_world
                                    ++ [search_request (api_token client_world) (PyDict items)]).
Proof.
  apply (build_fills_every_field client_arguments client_world).
  - apply client_arguments_valid.
  - apply client_arguments_live.
  - apply client_world_intact.
Defined.

(** ** C3: how a failed invocation comes back *)

(** C3, as amended.  With a credential configured, an invocation of
    [search_content] whose outbound call fails does not raise: the tool
    returns, as its ordinary result, the mapping [{"error": message}] with a
    message that is not empty.  The failure is marked inside the payload
    only: a successful answer whose body is that same mapping makes the tool
    return the same result. *)
Theorem failure_is_returned_in_band (srv : remote) (kwargs : gmap string loc)
    (w : world) (data : list (string * loc)) (items : list (string * pyvalue)) :
  truthy (api_token w) = true →
  build kwargs w = Some (Returned data, w) →
  resolve (objects w) data = Some items →
  outbound_failure (srv (search_request (api_token w) (PyDict items))) →
  ∃ msg w',
    search_content srv kwargs w = Some (Returned (error_dict msg), w')
    ∧ msg ≠ ""
    ∧ ∀ r, (200 ≤ status_code r ≤ 299)%Z → json_result r = inl (error_dict msg) →
           ∃ w'', search_content (λ _, PostReturns r) kwargs w
                  = Some (Returned (error_dict msg), w'').
Proof.
  intros Htok Hbuild Hitems Hfail.
  set (w1 := printed (SearchData (PyDict items)) w).
  assert (∀ srv', search_content srv' kwargs w = make_responsive_request srv' data w1)
    as Hrun by (intros; by apply search_content_run).
  assert (∀ srv', make_responsive_request srv' data w1 = _) as Hreq
    by (intros srv'; by apply (request_with_token srv' data w1 items)).
  cbn zeta in Hreq. change (api_token w1) with (api_token w) in Hreq.
  set (rq := search_request (api_token w) (PyDict items)) in *.
  assert (∀ e, is_Exception e = true →
               ∃ msg w', handlers e (sent rq w1) = Some (Returned (error_dict msg), w')
                         ∧ msg ≠ "") as Hcatch.
  { intros e He. destruct (handlers_catch e (sent rq w1) He) as (msg & line & -> & Hmsg).
    by eexists _, _. }
  assert (∃ msg w', search_content srv kwargs w = Some (Returned (error_dict msg), w')
                    ∧ msg ≠ "") as (msg & w' & Hcall & Hmsg).
  { rewrite Hrun, Hreq. unfold outbound_failure in Hfail.
    destruct (srv rq) as [e | r]; [by apply Hcatch |].
    destruct (is_success r) eqn:Hs.
    - destruct Hfail as [? | (c & m & Hjson & Hc)]; [done |]. rewrite Hjson.
      by apply Hcatch.
    - by apply Hcatch. }
  exists msg, w'. repeat split; [done .. |].
  intros r Hstatus Hjson. rewrite Hrun, Hreq.
  apply is_success_spec in Hstatus. rewrite Hstatus, Hjson. by eexists.
Qed.

Lemma client_world_build :
  ∃ data items,
    build client_arguments client_world = Some (Returned data, client_world)
    ∧ resolve (objects client_world) data = Some items.
Proof.
  destruct (build_valid client_arguments client_world client_arguments_valid)
    as (data & Hbound & Hbuild).
  destruct (bound_entries_resolve client_world client_arguments data
              client_arguments_live client_world_intact Hbound) as [items Hitems].
  exists data, items. split; assumption.
Qed.

Lemma failure_is_returned_in_band_witness :
  ∃ msg w', search_content remote_500 client_arguments client_world
            = Some (Returned (error_dict msg), w')
            ∧ msg ≠ "".
Proof.
  destruct client_world_build as (data & items & Hbuild & Hitems).
  destruct (failure_is_returned_in_band remote_500 client_arguments client_world
              data items) as (msg & w' & Hcall & Hmsg & _).
  - by vm_compute.
  - exact Hbuild.
  - exact Hitems.
  - left. reflexivity.
  - exists msg, w'. split; assumption.
Defined.

(** C3, as stated, fails: the invocation whose outbound call was answered
    500 and the invocation that was answered 200 hand the channel the same
    returned value, so no envelope built from the tool's result marks the
    first a failure and the second a success. *)
Lemma failure_looks_like_success :
  fst <$> search_content remote_500 client_arguments client_world
  = Some (Returned (error_dict "HTTP Error: 500"))
  ∧ fst <$> search_content (λ _, PostReturns error_shaped_page) client_arguments client_world
    = Some (Returned (error_dict "HTTP Error: 500")).
Proof. split; by vm_compute. Qed.

(** ** C6: the tools the server lists *)

(** C6, as amended.  Before any tool call, [list_tools] returns exactly one
    descriptor, named [search_content], whose schema lists the 22 fields of
    a search request in the order of the signature: [keyword], which is
    required and has no default, and the 21 optional parameters, each with
    its documented default. *)
Theorem list_tools_one_descriptor (environ : gmap string string) :
  list_tools (import_module environ)
  = Some (Returned [search_content_tool], import_module environ)
  ∧ t_name search_content_tool = "search_content"
  ∧ p_name <$> t_parameters search_content_tool
    = ["keyword"; "approvers"; "businessUnits"; "collectionList"; "cursor";
       "customFields"; "facetFields"; "flagFilter"; "hasAlertText"; "hasAttachment";
       "hasImage"; "hasOpenComment"; "idsList"; "languageSearch"; "lastUpdatedBy";
       "limit"; "metadata"; "owners"; "projectSearch"; "sectionSearch"; "starRating";
       "tagSearch"]
  ∧ length (t_parameters search_content_tool) = 22
  ∧ length documented_defaults = 21
  ∧ (∀ f d, (f, d) ∈ documented_defaults ↔
            (f, d) ∈ omap (λ p, pair (p_name p) <$> p_default p)
                          (t_parameters search_content_tool))
  ∧ (∀ p, p ∈ t_parameters search_content_tool →
          p_default p = None ↔ p_name p = "keyword").
Proof.
  repeat split; try reflexivity.
  - intros H. unfold documented_defaults in H. cbn in H.
    unfold search_content_tool, search_content_signature, param. cbn.
    elem_cases H; simplify_eq; solve_elem.
  - intros H. unfold search_content_tool, search_content_signature, param in H.
    cbn in H. unfold documented_defaults. cbn.
    elem_cases H; simplify_eq; solve_elem.
  - intros Hd. unfold search_content_tool, search_content_signature, param in H.
    cbn in H. elem_cases H; subst p; by cbn in *.
  - intros Hn. unfold search_content_tool, search_content_signature, param in H.
    cbn in H. elem_cases H; subst p; by cbn in *.
Qed.

(** C6, as stated, fails on the count: the one descriptor listed has 22
    parameters, not 21. *)
Lemma schema_has_22_parameters :
  ∃ d, fst <$> list_tools (import_module ∅) = Some (Returned [d])
       ∧ t_name d = "search_content"
       ∧ length (t_parameters d) = 22
       ∧ length (t_parameters d) ≠ 21.
Proof. exists search_content_tool. by repeat split. Qed.

(** ** C7: what [build] rejects *)

(** [build] raises the same exception in every world, or the mapping is well
    formed and [build] returns the same entries in every world. *)
Lemma build_cases (kwargs : gmap string loc) :
  (∃ e, ∀ w, build kwargs w = Some (Raised e, w))
  ∨ (valid_arguments kwargs
     ∧ ∃ data, bound_entries kwargs data ∧ ∀ w, build kwargs w = Some (Returned data, w)).
Proof.
  destruct (kwargs !! "keyword") as [l |] eqn:Hk.
  - destruct (unexpected kwargs) as [| k ks] eqn:Hu.
    + right. assert (valid_arguments kwargs) as Hvalid.
      { split; [by eexists |]. intros k [l' Hk'].
        destruct (decide (k ∈ parameter_names)) as [| Hn]; [done |]. exfalso.
        assert (k ∈ unexpected kwargs) as Hin.
        { unfold unexpected. apply list_elem_of_filter. split; [done |].
          apply list_elem_of_fmap. exists (k, l'). split; [done |].
          by apply elem_of_map_to_list. }
        rewrite Hu in Hin. by apply elem_of_nil in Hin. }
      split; [done |]. destruct (build_pure kwargs) as [o Ho].
      destruct (build_valid kwargs (Build_world ∅ None [] [] []) Hvalid)
        as (data & Hbound & Hbuild).
      rewrite Ho in Hbuild. simplify_eq. by exists data.
    + left. unfold build, bind_arguments. rewrite Hu. eexists. intros w.
      by erewrite run_bind_raised.
  - left. destruct (build_without_keyword kwargs Hk) as [msg H]. by eexists.
Qed.

Lemma deref_run (l : loc) (v : pyvalue) (w : world) :
  objects w !! l = Some v → deref l w = Some (Returned v, w).
Proof. intros H. unfold deref. by rewrite H. Qed.

(** The check of one parameter returns or raises a [ValueError], in the
    world it found, according to [passes]. *)
Lemma check_argument_run (kwargs : gmap string loc) (p : parameter) (w : world) :
  live w kwargs →
  (passes w kwargs p ∧ check_argument kwargs p w = Some (Returned tt, w))
  ∨ (¬ passes w kwargs p
     ∧ ∃ msg, check_argument kwargs p w = Some (Raised (PyExn ValueError msg), w)).
Proof.
  intros Hlive. unfold passes, check_argument.
  destruct (kwargs !! p_name p) as [l |] eqn:Hk.
  - destruct (Hlive _ _ Hk) as [v Hv].
    erewrite run_bind_returned; [| by apply deref_run].
    destruct (conforms (p_annotation p) v) eqn:Hc.
    + left. split; [by exists v | done].
    + right. split; [| by eexists]. intros (v' & Hv' & Hc'). congruence.
  - destruct (p_default p) as [d |].
    + left. split; [by eexists | done].
    + right. split; [by intros [? ?] | by eexists].
Qed.

Lemma check_arguments_run (ps : list parameter) (kwargs : gmap string loc) (w : world) :
  live w kwargs →
  (Forall (passes w kwargs) ps ∧ check_arguments ps kwargs w = Some (Returned tt, w))
  ∨ (¬ Forall (passes w kwargs) ps
     ∧ ∃ msg, check_arguments ps kwargs w = Some (Raised (PyExn ValueError msg), w)).
Proof.
  intros Hlive. induction ps as [| p ps IH]; [by left |].
  cbn [check_arguments].
  destruct (check_argument_run kwargs p w Hlive) as [[Hp Hrun] | [Hp [msg Hrun]]].
  - erewrite run_bind_returned; [| exact Hrun].
    destruct IH as [[Hps Hrest] | [Hps [msg Hrest]]].
    + left. split; [by constructor | done].
    + right. split; [| by exists msg]. intros H. by apply Forall_cons in H as [_ ?].
  - right. split.
    + intros H. by apply Forall_cons in H as [? _].
    + exists msg. by erewrite run_bind_raised.
Qed.

(** What [List[str]] admits is a list of strings. *)
Lemma conforms_string_list (v : pyvalue) :
  conforms (TList TStr) v = true → ∃ ss, v = PyList (PyStr <$> ss).
Proof.
  destruct v as [| | | | | items |]; try done. cbn. intros Hitems.
  assert (∃ ss, items = PyStr <$> ss) as [ss ->]; [| by exists ss].
  induction items as [| v items IH]; [by exists [] |].
  cbn in Hitems. apply andb_prop in Hitems as [Hv Hitems].
  destruct (IH Hitems) as [ss ->]. destruct v; try done. by eexists (_ :: ss).
Qed.

(** The source annotates [keyword] as a string without a default, and every
    list-typed field of the specification as a list of strings. *)
Lemma keyword_parameter :
  param "keyword" TStr None "Keyword to search for" ∈ search_content_signature.
Proof. unfold search_content_signature. solve_elem. Qed.

Lemma list_typed_annotations :
  Forall (λ p, p_name p ∈ list_typed_fields → p_annotation p = TList TStr)
         search_content_signature.
Proof.
  unfold search_content_signature, list_typed_fields.
  repeat (constructor;
          [ cbn; intros H; first [reflexivity | exfalso; elem_cases H; simplify_eq] |]).
  constructor.
Qed.

Lemma list_typed_are_parameters (f : string) :
  f ∈ list_typed_fields → f ∈ parameter_names.
Proof.
  intros H. unfold list_typed_fields in H.
  unfold parameter_names, search_content_signature. cbn.
  elem_cases H; simplify_eq; solve_elem.
Qed.

(** C7.  [build], as the registered tool reaches it, fails with a validation
    error (a [ValueError]) and produces no request, in a world left as it
    was, for every argument mapping in which [keyword] is missing or is not
    a string, or in which a list-typed parameter is not a list of strings.
    A mapping that gives [keyword], names parameters only and passes the
    check of every parameter is built as by the function itself. *)
Theorem registry_rejects_ill_typed_arguments (kwargs : gmap string loc) (w : world) :
  live w kwargs →
  ((kwargs !! "keyword" = None
    ∨ (∃ l v, kwargs !! "keyword" = Some l ∧ objects w !! l = Some v ∧ ∀ s, v ≠ PyStr s)
    ∨ (∃ f l v, f ∈ list_typed_fields ∧ kwargs !! f = Some l ∧ objects w !! l = Some v
                ∧ ∀ ss, v ≠ PyList (PyStr <$> ss))) →
   ∃ msg, validated_build kwargs w = Some (Raised (PyExn ValueError msg), w))
  ∧ (valid_arguments kwargs → Forall (passes w kwargs) search_content_signature →
     ∃ data, validated_build kwargs w = Some (Returned data, w)
             ∧ build kwargs w = Some (Returned data, w)).
Proof.
  intros Hlive. unfold validated_build.
  destruct (check_arguments_run search_content_signature kwargs w Hlive)
    as [[Hall Hrun] | [Hnot [msg Hrun]]]; split.
  - intros Hbad. exfalso. rewrite Forall_forall in Hall.
    destruct Hbad as [Hk | [(l & v & Hk & Hv & Hstr) | (f & l & v & Hf & Hk & Hv & Hlist)]].
    + specialize (Hall _ keyword_parameter). unfold passes in Hall. cbn in Hall.
      rewrite Hk in Hall. by destruct Hall.
    + specialize (Hall _ keyword_parameter). unfold passes in Hall. cbn in Hall.
      rewrite Hk in Hall. destruct Hall as (v' & Hv' & Hc).
      rewrite Hv in Hv'. injection Hv' as <-.
      destruct v; try done. by eapply Hstr.
    + pose proof (list_typed_are_parameters f Hf) as Hname.
      apply list_elem_of_fmap in Hname as (p & -> & Hp).
      specialize (Hall _ Hp). unfold passes in Hall. rewrite Hk in Hall.
      destruct Hall as (v' & Hv' & Hc). rewrite Hv in Hv'. injection Hv' as <-.
      pose proof list_typed_annotations as Hann. rewrite Forall_forall in Hann.
      rewrite (Hann _ Hp Hf) in Hc. apply conforms_string_list in Hc as [ss ->].
      by eapply Hlist.
  - intros Hvalid _. destruct (build_valid kwargs w Hvalid) as (data & _ & Hbuild).
    exists data. split; [| done].
    erewrite run_bind_returned; [| exact Hrun].
    rewrite map_filter_id; [done |]. intros k l Hk. cbn. apply Hvalid. by exists l.
  - intros _. exists msg. by erewrite run_bind_raised.
  - intros _ Hall. done.
Qed.

Lemma ill_typed_arguments_live : live ill_typed_world ill_typed_arguments.
Proof.
  intros k l Hk. unfold ill_typed_arguments in Hk.
  apply lookup_insert_Some in Hk as [[_ <-] | [_ Hk]].
  - eexists. by vm_compute.
  - apply lookup_singleton_Some in Hk as [_ <-]. eexists. by vm_compute.
Qed.

Lemma registry_rejects_ill_typed_arguments_witness :
  ∃ msg, validated_build ill_typed_arguments ill_typed_world
         = Some (Raised (PyExn ValueError msg), ill_typed_world).
Proof.
  apply (proj1 (registry_rejects_ill_typed_arguments ill_typed_arguments ill_typed_world
                  ill_typed_arguments_live)).
  right. left. exists 100, (PyInt 5).
  split; [by vm_compute |]. split; [by vm_compute |]. intros s. discriminate.
Defined.

(** ** C8: one call, no retry *)

Lemma search_content_built (srv : remote) (kwargs : gmap string loc) (w : world)
    (data : list (string * loc)) (items : list (string * pyvalue)) :
  build kwargs w = Some (Returned data, w) →
  resolve (objects w) data = Some items →
  ∃ o w' rest,
    search_content srv kwargs w = Some (o, w')
    ∧ effects w w' (SearchData (PyDict items) :: rest) (calls_made (api_token w) items).
Proof.
  intros Hbuild Hitems. rewrite (search_content_run srv kwargs w data items Hbuild Hitems).
  destruct (request_total srv data (printed (SearchData (PyDict items)) w) items Hitems)
    as (o & w' & rest & -> & Heff).
  exists o, w', rest. split; [done |].
  apply (effects_trans _ _ _ [_] _ [] _ (effects_printed _ w) Heff).
Qed.

(** C8, as amended.  Whatever the environment answers, an invocation of
    [make_responsive_request] with a credential configured issues exactly
    one outbound call, with a timeout of 30 seconds, and none without a
    credential; a failure is never followed by a second call.  The same
    holds for the tool as a whole: [search_content] adds to the wire the call
    of its one [make_responsive_request] and nothing else. *)
Theorem one_call_no_retry (srv : remote) (kwargs : gmap string loc)
    (data : list (string * loc)) (w : world) (items : list (string * pyvalue)) :
  resolve (objects w) data = Some items →
  let rq := search_request (api_token w) (PyDict items) in
  let calls := if truthy (api_token w) then [rq] else [] in
  timeout rq = 30%Z
  ∧ (∃ o w', make_responsive_request srv data w = Some (o, w')
             ∧ wire w' = wire w ++ calls)
  ∧ (build kwargs w = Some (Returned data, w) →
     ∃ o w', search_content srv kwargs w = Some (o, w') ∧ wire w' = wire w ++ calls).
Proof.
  intros Hitems rq calls. repeat split.
  - destruct (request_total srv data w items Hitems) as (o & w' & lines & Hrun & Heff).
    exists o, w'. split; [done |]. apply Heff.
  - intros Hbuild.
    destruct (search_content_built srv kwargs w data items Hbuild Hitems)
      as (o & w' & rest & Hrun & Heff).
    exists o, w'. split; [done |]. apply Heff.
Qed.

Lemma one_call_no_retry_witness :
  ∃ o w', make_responsive_request remote_500 [] started = Some (o, w')
          ∧ wire w' = wire started ++ [search_request (api_token started) (PyDict [])].
Proof.
  apply (proj1 (proj2 (one_call_no_retry remote_500 ∅ [] started [] eq_refl))).
Defined.

(** C8, as stated, fails for an invocation without a credential: it issues no
    outbound call at all. *)
Lemma no_credential_no_call :
  (λ r, wire r.2) <$> make_responsive_request remote_ok [] (import_module ∅) = Some []
  ∧ (λ r, length (wire r.2)) <$> make_responsive_request remote_ok [] (import_module ∅)
    ≠ Some 1.
Proof. split; by vm_compute. Qed.

(** * Further properties of the server *)

(** ** What the handlers do to the world *)

(** A handler either lets the exception go on, in the world it found, or
    returns an error mapping after printing one line. *)
Lemma handlers_shape (e : exn) :
  (∀ w, handlers e w = Some (Raised e, w))
  ∨ (∃ msg line, ∀ w, handlers e w = Some (Returned (error_dict msg), printed line w)).
Proof.
  destruct e as [m r | c m].
  - right. eexists _, _. intros w. apply handlers_HTTPStatusError.
  - destruct (issubclass c RequestError) eqn:Hr.
    { right. eexists _, _. intros w. by apply handlers_RequestError. }
    destruct (issubclass c JSONDecodeError) eqn:Hj.
    { right. eexists _, _. intros w. by apply handlers_JSONDecodeError. }
    destruct (issubclass c Exception) eqn:He.
    + right. eexists _, _. intros w. by apply handlers_Exception.
    + left. intros w. by apply handlers_pass.
Qed.

(** What the guarded block of [make_responsive_request] ends in, in the
    world where the call has been sent: the same outcome and the same lines
    whatever that world is. *)
Lemma answer_shape (o : post_outcome) :
  ∃ (res : outcome pyvalue) (lines : list out_line),
    length lines ≤ 1
    ∧ ((∃ e, res = Raised e) → lines = [])
    ∧ ∀ w, match o with
           | PostRaises e => handlers e w
           | PostReturns r =>
               if is_success r then
                 match json_result r with
                 | inl v => Some (Returned v, w)
                 | inr (c, m) => handlers (PyExn c m) w
                 end
               else handlers (HTTPStatusError ("HTTP status " +:+ pretty (status_code r)) r) w
           end = Some (res, foldl (λ w l, printed l w) w lines).
Proof.
  assert (∀ e, ∃ (res : outcome pyvalue) (lines : list out_line),
             length lines ≤ 1 ∧ ((∃ e', res = Raised e') → lines = [])
             ∧ ∀ w, handlers e w = Some (res, foldl (λ w l, printed l w) w lines)) as Hh.
  { intros e. destruct (handlers_shape e) as [Hpass | (msg & line & Hcatch)].
    - exists (Raised e), []. split; [cbn; lia |]. by split.
    - exists (Returned (error_dict msg)), [line]. split; [cbn; lia |].
      split; [by intros [? ?] | done]. }
  destruct o as [e | r]; [apply Hh |].
  destruct (is_success r); [| apply Hh].
  destruct (json_result r) as [v | [c m]]; [| apply Hh].
  exists (Returned v), []. split; [cbn; lia |]. by split.
Qed.

Lemma printed_all_effects (lines : list out_line) (w : world) :
  effects w (foldl (λ w l, printed l w) w lines) lines [].
Proof.
  revert w. induction lines as [| l lines IH]; intros w; [apply effects_refl |].
  cbn [foldl].
  apply (effects_trans _ _ _ [l] lines [] [] (effects_printed l w) (IH _)).
Qed.

(** With a credential, what [make_responsive_request] returns and leaves
    behind, in terms of the lines the answer makes it print. *)
Lemma request_effects (srv : remote) (data : list (string * loc)) (w : world)
    (items : list (string * pyvalue)) :
  truthy (api_token w) = true →
  resolve (objects w) data = Some items →
  ∃ res lines,
    length lines ≤ 1
    ∧ ((∃ e, res = Raised e) → lines = [])
    ∧ (∀ srv' w', truthy (api_token w') = true → objects w' = objects w →
         srv' (search_request (api_token w') (PyDict items))
         = srv (search_request (api_token w) (PyDict items)) →
         ∃ w'', make_responsive_request srv' data w' = Some (res, w'')
                ∧ effects w' w'' lines [search_request (api_token w') (PyDict items)]).
Proof.
  intros Htok Hitems.
  destruct (answer_shape (srv (search_request (api_token w) (PyDict items))))
    as (res & lines & Hlen & Hraised & Hans).
  exists res, lines. split; [done |]. split; [done |].
  intros srv' w' Htok' Hobj Hsrv.
  rewrite (request_with_token srv' data w' items Htok'); [| by rewrite Hobj].
  cbn zeta. rewrite Hsrv, Hans. eexists. split; [done |].
  apply (effects_trans _ _ _ [] lines [_] [] (effects_sent _ w') (printed_all_effects _ _)).
Qed.

(** ** The credential *)

(** Of the credential, [make_responsive_request] uses the [Authorization]
    header of the one request only: with another credential in its place,
    if the remote answers the second request as it answered the first,
    [make_responsive_request] returns or raises the same and prints the same
    lines, and the two requests differ in that header only.  What the remote
    answers is its own: it may depend on the header, and so may the text of
    an exception that is printed and returned. *)
Theorem credential_only_in_header (srv srv' : remote) (data : list (string * loc))
    (w : world) (t' : option string) (items : list (string * pyvalue)) :
  truthy (api_token w) = true →
  truthy t' = true →
  resolve (objects w) data = Some items →
  srv' (search_request t' (PyDict items)) = srv (search_request (api_token w) (PyDict items)) →
  ∃ o lines w1 w2,
    make_responsive_request srv data w = Some (o, w1)
    ∧ make_responsive_request srv' data (with_token t' w) = Some (o, w2)
    ∧ stdout w1 = stdout w ++ lines
    ∧ stdout w2 = stdout w ++ lines
    ∧ wire w1 = wire w ++ [search_request (api_token w) (PyDict items)]
    ∧ wire w2 = wire w ++ [search_request t' (PyDict items)].
Proof.
  intros Htok Htok' Hitems Hsrv.
  destruct (request_effects srv data w items Htok Hitems) as (res & lines & _ & _ & Hrun).
  destruct (Hrun srv w Htok eq_refl eq_refl) as (w1 & Hrun1 & _ & Hout1 & Hwire1).
  destruct (Hrun srv' (with_token t' w) Htok' eq_refl Hsrv) as (w2 & Hrun2 & _ & Hout2 & Hwire2).
  exists res, lines, w1, w2. by repeat split.
Qed.

Lemma credential_only_in_header_witness :
  ∃ o lines w1 w2,
    make_responsive_request remote_500 [] started = Some (o, w1)
    ∧ make_responsive_request remote_500 [] (with_token (Some "other") started) = Some (o, w2)
    ∧ stdout w1 = stdout started ++ lines
    ∧ stdout w2 = stdout started ++ lines
    ∧ wire w1 = wire started ++ [search_request (api_token started) (PyDict [])]
    ∧ wire w2 = wire started ++ [search_request (Some "other") (PyDict [])].
Proof.
  apply (credential_only_in_header remote_500 remote_500 [] started (Some "other") []).
  - by vm_compute.
  - reflexivity.
  - reflexivity.
  - reflexivity.
Defined.

(** ** What is printed and what is sent *)

(** An accepted invocation prints the request before anything else, sends
    that same mapping as the body of its call (with a credential; without
    one it sends nothing, but has printed the request all the same), and
    prints at most one line more: none when it raises. *)
Theorem printed_request_is_the_sent_one (srv : remote) (kwargs : gmap string loc)
    (w : world) :
  valid_arguments kwargs → live w kwargs → defaults_intact w →
  ∃ o w' items rest,
    search_content srv kwargs w = Some (o, w')
    ∧ stdout w' = stdout w ++ SearchData (PyDict items) :: rest
    ∧ length rest ≤ 1
    ∧ ((∃ e, o = Raised e) → rest = [])
    ∧ wire w' = wire w ++ (if truthy (api_token w)
                           then [search_request (api_token w) (PyDict items)] else []).
Proof.
  intros Hvalid Hlive Hintact.
  destruct (build_valid kwargs w Hvalid) as (data & Hbound & Hbuild).
  destruct (bound_entries_resolve w kwargs data Hlive Hintact Hbound) as [items Hitems].
  rewrite (search_content_run srv kwargs w data items Hbuild Hitems).
  set (w1 := printed (SearchData (PyDict items)) w).
  destruct (truthy (api_token w)) eqn:Htok.
  - destruct (request_effects srv data w1 items Htok Hitems)
      as (res & lines & Hlen & Hraised & Hrun).
    destruct (Hrun srv w1 Htok eq_refl eq_refl) as (w' & -> & _ & Hout & Hwire).
    exists res, w', items, lines. split; [done |]. split.
    { rewrite Hout. cbn. by rewrite <- app_assoc. }
    by repeat split.
  - rewrite (request_without_token srv data w1 Htok).
    eexists _, _, items, []. split; [done |]. split; [done |].
    split; [cbn; lia |]. split; [done |]. cbn. by rewrite app_nil_r.
Qed.

Lemma printed_request_is_the_sent_one_witness :
  ∃ o w' items rest,
    search_content remote_500 client_arguments client_world = Some (o, w')
    ∧ stdout w' = stdout client_world ++ SearchData (PyDict items) :: rest
    ∧ length rest ≤ 1
    ∧ ((∃ e, o = Raised e) → rest = [])
    ∧ wire w' = wire client_world
                  ++ (if truthy (api_token client_world)
                      then [search_request (api_token client_world) (PyDict items)] else []).
Proof.
  apply (printed_request_is_the_sent_one remote_500 client_arguments client_world).
  - apply client_arguments_valid.
  - apply client_arguments_live.
  - apply client_world_intact.
Defined.

(** ** Invariants of the running server *)

Lemma run_bind_none {A B} (m : M A) (k : A → M B) (w : world) :
  m w = None → (m ≫= k) w = None.
Proof. intros Hm. unfold mbind, M_bind, bind. by rewrite Hm. Qed.

(** Whatever an invocation does, it only prints and sends: at most one call,
    and that one the call for the credential of the world. *)
Lemma search_content_effects (srv : remote) (kwargs : gmap string loc) (w w' : world)
    (o : outcome pyvalue) :
  search_content srv kwargs w = Some (o, w') →
  ∃ lines calls,
    effects w w' lines calls
    ∧ (calls = []
       ∨ ∃ items, truthy (api_token w) = true
                  ∧ calls = [search_request (api_token w) (PyDict items)]).
Proof.
  intros Hcall. destruct (build_pure kwargs) as [[data | e] Hbuild].
  - destruct (resolve (objects w) data) as [items |] eqn:Hitems.
    + destruct (search_content_built srv kwargs w data items (Hbuild w) Hitems)
        as (o1 & w1 & rest & Hcall1 & Heff).
      rewrite Hcall1 in Hcall. simplify_eq.
      eexists _, _. split; [exact Heff |]. unfold calls_made.
      destruct (truthy (api_token w)) eqn:Htok; [right | by left].
      by exists items.
    + unfold search_content in Hcall.
      erewrite run_bind_returned in Hcall; [| apply Hbuild].
      rewrite run_bind_none in Hcall; [done |]. by rewrite json_dumps_run, Hitems.
  - unfold search_content in Hcall.
    erewrite run_bind_raised in Hcall; [| apply Hbuild]. simplify_eq.
    exists [], []. split; [apply effects_refl | by left].
Qed.

Lemma run_invariant (w0 : world) (n : nat) (w : world) :
  run_from w0 n w →
  tools w = tools w0
  ∧ api_token w = api_token w0
  ∧ (∀ l v, objects w0 !! l = Some v → objects w !! l = Some v)
  ∧ ∃ calls, wire w = wire w0 ++ calls
             ∧ length calls ≤ n
             ∧ Forall (well_formed_call (api_token w0)) calls
             ∧ (truthy (api_token w0) = false → calls = []).
Proof.
  induction 1 as [| n w l v _ (Htools & Htok & Hobj & calls & Hwire & Hlen & Hwf & Hnone) Hfree
                  | n w srv kwargs o w' _ (Htools & Htok & Hobj & calls & Hwire & Hlen & Hwf & Hnone)
                      Hcall].
  - repeat split; [done .. |]. exists []. rewrite app_nil_r. by repeat split.
  - repeat split; [done .. | |].
    + intros l' v' Hl'. cbn. rewrite lookup_insert_ne; [by apply Hobj |].
      intros ->. apply Hobj in Hl'. congruence.
    + by exists calls.
  - destruct (search_content_effects srv kwargs w w' o Hcall)
      as (lines & new & ((Hobj' & Htok' & Htools') & _ & Hwire') & Hnew).
    repeat split; [congruence | congruence | |].
    + intros l v Hl. rewrite Hobj'. by apply Hobj.
    + exists (calls ++ new). rewrite Hwire', Hwire, app_assoc. split; [done |].
      destruct Hnew as [-> | (items & Htruthy & ->)].
      * rewrite app_nil_r. repeat split; [lia | done | done].
      * rewrite Htok in Htruthy. rewrite length_app. cbn. repeat split; [lia | | ].
        -- apply Forall_app. split; [done |]. constructor; [| constructor].
           rewrite Htok. by repeat split.
        -- intros Hfalse. congruence.
Qed.

(** The example run: the server starts with a credential, the caller makes
    the string "conduct", and the tool is invoked once against a remote that
    answers 500. *)
Lemma example_run : ∃ w, run_from started 1 w.
Proof.
  destruct client_world_build as (data & items & Hbuild & Hitems).
  destruct (search_content_built remote_500 client_arguments client_world data items
              Hbuild Hitems) as (o & w & rest & Hcall & _).
  exists w. eapply run_call; [| exact Hcall].
  apply run_allocate; [apply run_start | by vm_compute].
Qed.

(** However many invocations the server has served, and whatever they
    returned or raised, [list_tools] still answers with the one descriptor
    [search_content]: no invocation registers, removes or changes a tool. *)
Theorem tools_never_change (environ : gmap string string) (n : nat) (w : world) :
  run_from (import_module environ) n w →
  list_tools w = Some (Returned [search_content_tool], w).
Proof.
  intros Hrun. destruct (run_invariant _ _ _ Hrun) as (Htools & _).
  unfold list_tools. by rewrite Htools.
Qed.

Lemma tools_never_change_witness :
  ∃ w, run_from started 1 w ∧ list_tools w = Some (Returned [search_content_tool], w).
Proof.
  destruct example_run as [w Hw]. exists w. split; [exact Hw |].
  exact (tools_never_change _ 1 w Hw).
Defined.

(** No invocation changes or removes an object: every object of the store
    is still there, with the value it had, after any number of invocations
    and of objects made by callers.  In particular the default objects of
    [search_content] stay as the [def] left them. *)
Theorem objects_outlive_calls (n : nat) (w0 w : world) :
  run_from w0 n w →
  (∀ l v, objects w0 !! l = Some v → objects w !! l = Some v)
  ∧ (defaults_intact w0 → defaults_intact w).
Proof.
  intros Hrun. destruct (run_invariant _ _ _ Hrun) as (_ & _ & Hobj & _).
  split; [done |]. intros H0 f l v Hin. apply Hobj. by eapply H0.
Qed.

Lemma objects_outlive_calls_witness :
  ∃ w, run_from started 1 w ∧ defaults_intact w.
Proof.
  destruct example_run as [w Hw]. exists w. split; [exact Hw |].
  exact (proj2 (objects_outlive_calls 1 started w Hw) (import_defaults_intact _)).
Defined.

(** After [n] invocations the server has issued at most [n] outbound calls,
    each to the search endpoint, with the credential read at start-up as
    bearer and a timeout of 30 seconds; a server started without a
    credential never issues one. *)
Theorem wire_bounded_by_invocations (environ : gmap string string) (n : nat) (w : world) :
  run_from (import_module environ) n w →
  length (wire w) ≤ n
  ∧ Forall (well_formed_call (environ !! "RESPONSIVE_API_TOKEN")) (wire w)
  ∧ (truthy (environ !! "RESPONSIVE_API_TOKEN") = false → wire w = []).
Proof.
  intros Hrun.
  destruct (run_invariant _ _ _ Hrun) as (_ & _ & _ & calls & Hwire & Hlen & Hwf & Hnone).
  cbn in Hwire. subst. repeat split; [done .. |].
  intros Hfalse. by apply Hnone.
Qed.

Lemma wire_bounded_by_invocations_witness :
  ∃ w, run_from started 1 w
       ∧ length (wire w) ≤ 1
       ∧ Forall (well_formed_call (Some "secret")) (wire w).
Proof.
  destruct example_run as [w Hw]. exists w. split; [exact Hw |].
  destruct (wire_bounded_by_invocations _ 1 w Hw) as (Hlen & Hwf & _).
  split; [exact Hlen | exact Hwf].
Defined.

(** ** C10: calls share nothing *)

Lemma given_values_lookup (w : world) (kwargs : gmap string loc) (k : string) :
  given_values w kwargs !! k = kwargs !! k ≫= (λ l, objects w !! l).
Proof. unfold given_values. apply lookup_omap. Qed.

(** Two live mappings that give the same values give the same names. *)
Lemma given_values_names (w1 w2 : world) (kw1 kw2 : gmap string loc) (k : string) :
  live w1 kw1 → live w2 kw2 → given_values w2 kw2 = given_values w1 kw1 →
  is_Some (kw1 !! k) → is_Some (kw2 !! k).
Proof.
  intros Hl1 Hl2 Heq [l1 Hk1]. destruct (Hl1 _ _ Hk1) as [v Hv].
  assert (given_values w2 kw2 !! k = Some v) as H.
  { rewrite Heq, given_values_lookup, Hk1. done. }
  rewrite given_values_lookup in H. destruct (kw2 !! k); [by eexists | done].
Qed.

Lemma equal_values_valid (w1 w2 : world) (kw1 kw2 : gmap string loc) :
  live w1 kw1 → live w2 kw2 → given_values w2 kw2 = given_values w1 kw1 →
  valid_arguments kw1 → valid_arguments kw2.
Proof.
  intros Hl1 Hl2 Heq [Hk Hnames]. split.
  - exact (given_values_names w1 w2 kw1 kw2 "keyword" Hl1 Hl2 Heq Hk).
  - intros k Hk2. apply Hnames.
    exact (given_values_names w2 w1 kw2 kw1 k Hl2 Hl1 (eq_sym Heq) Hk2).
Qed.

(** A parameter is bound to objects of equal value under two mappings that
    give the same values, in stores whose default objects are intact. *)
Lemma equal_values_bound (w1 w2 : world) (kw1 kw2 : gmap string loc)
    (n : string) (l1 l2 : loc) :
  live w1 kw1 → live w2 kw2 → defaults_intact w1 → defaults_intact w2 →
  given_values w2 kw2 = given_values w1 kw1 →
  bound_to kw1 n = Some l1 → bound_to kw2 n = Some l2 →
  objects w1 !! l1 = objects w2 !! l2.
Proof.
  intros Hl1 Hl2 Hi1 Hi2 Heq Hb1 Hb2.
  pose proof (f_equal (.!! n) Heq) as Hn. cbn in Hn.
  rewrite !given_values_lookup in Hn.
  destruct (kw1 !! n) as [l |] eqn:Hk1.
  - rewrite (bound_to_given _ _ _ Hk1) in Hb1. simplify_eq.
    destruct (Hl1 _ _ Hk1) as [v Hv]. cbn in Hn. rewrite Hv in Hn. rewrite Hv.
    destruct (kw2 !! n) as [l' |] eqn:Hk2; [| done].
    rewrite (bound_to_given _ _ _ Hk2) in Hb2. by simplify_eq.
  - rewrite (bound_to_omitted _ _ Hk1) in Hb1.
    destruct (kw2 !! n) as [l' |] eqn:Hk2.
    { destruct (Hl2 _ _ Hk2) as [v Hv]. cbn in Hn. by rewrite Hv in Hn. }
    rewrite (bound_to_omitted _ _ Hk2) in Hb2. simplify_eq.
    destruct (default_object_of _ _ Hb1) as [v Hv].
    by rewrite (Hi1 _ _ _ Hv), (Hi2 _ _ _ Hv).
Qed.

Lemma equal_values_items (h1 h2 : gmap loc pyvalue) (kw1 kw2 : gmap string loc)
    (ns : list string) (data1 data2 : list (string * loc))
    (items1 items2 : list (string * pyvalue)) :
  Forall2 (λ n kl, kl.1 = n ∧ bound_to kw1 n = Some kl.2) ns data1 →
  Forall2 (λ n kl, kl.1 = n ∧ bound_to kw2 n = Some kl.2) ns data2 →
  resolves_to h1 data1 items1 → resolves_to h2 data2 items2 →
  (∀ n l1 l2, bound_to kw1 n = Some l1 → bound_to kw2 n = Some l2 → h1 !! l1 = h2 !! l2) →
  items1 = items2.
Proof.
  intros Hb1. revert data2 items1 items2.
  induction Hb1 as [| n [k1 l1] ns data1 [Hk1 Hl1] _ IH];
    intros data2 items1 items2 Hb2 Hr1 Hr2 Heq.
  - apply Forall2_nil_inv_l in Hb2 as ->.
    apply Forall2_nil_inv_l in Hr1 as ->. by apply Forall2_nil_inv_l in Hr2 as ->.
  - apply Forall2_cons_inv_l in Hb2 as ([k2 l2] & data2' & [Hk2 Hl2] & Hb2 & ->).
    apply Forall2_cons_inv_l in Hr1 as ([k1' v1] & items1' & [Hk1' Hv1] & Hr1 & ->).
    apply Forall2_cons_inv_l in Hr2 as ([k2' v2] & items2' & [Hk2' Hv2] & Hr2 & ->).
    cbn in *. subst. f_equal.
    + f_equal. pose proof (Heq _ _ _ Hl1 Hl2) as H. rewrite Hv1, Hv2 in H. by simplify_eq.
    + by eapply IH.
Qed.

(** C10.  In a store where the arguments are objects and the default
    objects are as the [def] left them, an invocation of [search_content]
    returns or raises and changes no object, the arguments' and the shared
    defaults' included.  Therefore any later invocation, after any number
    of other invocations and of objects made by callers, that is given the
    same values for the same parameters (in the same objects or in others,
    with the same parameters omitted) builds the same request, whatever the
    remote answers each: the same [data] is printed first, and the same
    calls go on the wire. *)
Theorem equal_arguments_build_equal_payloads (srv1 srv2 : remote)
    (kw1 kw2 : gmap string loc) (w0 : world) :
  live w0 kw1 → defaults_intact w0 →
  ∃ o1 w1 lines1 calls,
    search_content srv1 kw1 w0 = Some (o1, w1)
    ∧ objects w1 = objects w0
    ∧ stdout w1 = stdout w0 ++ lines1
    ∧ wire w1 = wire w0 ++ calls
    ∧ ∀ n w1',
        run_from w1 n w1' → live w1' kw2 →
        given_values w1' kw2 = given_values w0 kw1 →
        ∃ o2 w2 lines2,
          search_content srv2 kw2 w1' = Some (o2, w2)
          ∧ objects w2 = objects w1'
          ∧ stdout w2 = stdout w1' ++ lines2
          ∧ head lines2 = head lines1
          ∧ wire w2 = wire w1' ++ calls.
Proof.
  intros Hlive Hintact.
  assert (∀ e kw srv w, (∀ w, build kw w = Some (Raised e, w)) →
                        search_content srv kw w = Some (Raised e, w)) as Hraise.
  { intros e kw srv w He. unfold search_content. by erewrite run_bind_raised. }
  destruct (build_cases kw1) as [[e He] | (Hvalid & data & Hbound & Hbuild)].
  - exists (Raised e), w0, [], []. rewrite (Hraise e kw1 srv1 w0 He), !app_nil_r.
    repeat split; [done .. |]. intros n w1' _ Hlive2 Hsame.
    destruct (build_cases kw2) as [[e2 He2] | (Hvalid2 & _)].
    + exists (Raised e2), w1', []. rewrite (Hraise e2 kw2 srv2 w1' He2), !app_nil_r.
      by repeat split.
    + exfalso. assert (valid_arguments kw1) as Hvalid1.
      { by eapply (equal_values_valid w1' w0 kw2 kw1). }
      destruct (build_valid kw1 w0 Hvalid1) as (data & _ & Hbuild).
      rewrite He in Hbuild. discriminate.
  - destruct (bound_entries_resolve w0 kw1 data Hlive Hintact Hbound) as [items Hitems].
    destruct (search_content_built srv1 kw1 w0 data items (Hbuild w0) Hitems)
      as (o1 & w1 & rest1 & Hcall1 & (Hobj1 & Htok1 & _) & Hout1 & Hwire1).
    exists o1, w1, (SearchData (PyDict items) :: rest1), (calls_made (api_token w0) items).
    repeat split; [done .. |]. intros n w1' Hrun Hlive2 Hsame.
    destruct (run_invariant _ _ _ Hrun) as (_ & Htok' & Hkept & _).
    assert (defaults_intact w1') as Hintact'.
    { intros f l v Hin. apply Hkept. rewrite Hobj1. by eapply Hintact. }
    assert (valid_arguments kw2) as Hvalid2.
    { by eapply (equal_values_valid w0 w1' kw1 kw2). }
    destruct (build_valid kw2 w1' Hvalid2) as (data2 & Hbound2 & Hbuild2).
    destruct (bound_entries_resolve w1' kw2 data2 Hlive2 Hintact' Hbound2)
      as [items2 Hitems2].
    assert (items2 = items) as ->.
    { symmetry.
      eapply (equal_values_items (objects w0) (objects w1') kw1 kw2 parameter_names
                data data2); [exact Hbound | exact Hbound2 | by apply resolve_Some ..
                             |].
      intros f l1 l2 Hb1 Hb2. by eapply (equal_values_bound w0 w1' kw1 kw2 f). }
    destruct (search_content_built srv2 kw2 w1' data2 items Hbuild2 Hitems2)
      as (o2 & w2 & rest2 & Hcall2 & (Hobj2 & _ & _) & Hout2 & Hwire2).
    exists o2, w2, (SearchData (PyDict items) :: rest2).
    rewrite Htok', Htok1 in Hwire2. by repeat split.
Qed.

(** The hypotheses on the later invocation can be met by another object:
    a second caller that makes its own string "conduct" at a free location
    gives the values the first caller gave. *)
Lemma second_caller_gives_equal_values (w : world) :
  objects w !! 100 = Some (PyStr "conduct") → objects w !! 200 = None →
  let w' := allocate 200 (PyStr "conduct") w in
  live w' {[ "keyword" := 200 ]}
  ∧ given_values w' {[ "keyword" := 200 ]} = given_values client_world client_arguments.
Proof.
  intros H100 H200 w'. split.
  - intros k l Hk. apply lookup_singleton_Some in Hk as [_ <-]. cbn.
    rewrite lookup_insert_eq. by eexists.
  - apply map_eq. intros k. rewrite !given_values_lookup.
    unfold client_arguments. destruct (decide (k = "keyword")) as [-> | Hne].
    + rewrite !lookup_singleton_eq. cbn. rewrite lookup_insert_eq. by vm_compute.
    + by rewrite !lookup_singleton_ne.
Qed.

Lemma equal_arguments_build_equal_payloads_witness :
  ∃ o1 w1 lines1 calls,
    search_content remote_500 client_arguments client_world = Some (o1, w1)
    ∧ objects w1 = objects client_world
    ∧ stdout w1 = stdout client_world ++ lines1
    ∧ wire w1 = wire client_world ++ calls
    ∧ ∃ o2 w2 lines2,
        search_content (λ _, PostReturns empty_page) {[ "keyword" := 200 ]}
          (allocate 200 (PyStr "conduct") w1) = Some (o2, w2)
        ∧ objects w2 = <[200 := PyStr "conduct"]> (objects w1)
        ∧ stdout w2 = stdout w1 ++ lines2
        ∧ head lines2 = head lines1
        ∧ wire w2 = wire w1 ++ calls.
Proof.
  destruct (equal_arguments_build_equal_payloads remote_500 (λ _, PostReturns empty_page)
              client_arguments {[ "keyword" := 200 ]} client_world
              client_arguments_live client_world_intact)
    as (o1 & w1 & lines1 & calls & Hcall & Hobj & Hout & Hwire & Hlater).
  exists o1, w1, lines1, calls. do 4 (split; [assumption |]).
  assert (objects w1 !! 100 = Some (PyStr "conduct")) as H100.
  { rewrite Hobj. vm_compute. reflexivity. }
  assert (objects w1 !! 200 = None) as H200.
  { rewrite Hobj. vm_compute. reflexivity. }
  destruct (second_caller_gives_equal_values w1 H100 H200) as [Hlive Hsame].
  exact (Hlater 0 (allocate 200 (PyStr "conduct") w1)
           (run_allocate w1 0 w1 200 (PyStr "conduct") (run_start w1) H200) Hlive Hsame).
Defined.


(** * The client *)

(** ** Context managers and the session script *)

(** An [async with] whose [__aenter__] raises asks nothing more. *)
Lemma with_context_not_entered {R : Type} (p : peer R) (c : context_manager)
    (body : R → C unit) (st : client R) (e : exn) :
  on_enter p (history st) c = inl e →
  with_context p c body st = (Raised e, asked (Enter c) st).
Proof. intros H. unfold with_context. by rewrite H. Qed.

(** An [async with] that was entered exits with what leaves the block, and
    ends in what is still leaving after [__aexit__]. *)
Lemma with_context_entered {R : Type} (p : peer R) (c : context_manager)
    (body : R → C unit) (st st2 : client R) (x : R) (leaving : option exn) :
  on_enter p (history st) c = inr x →
  body x (asked (Enter c) st) = (ends_in leaving, st2) →
  with_context p c body st
  = (ends_in (still_leaving (on_exit p (history st2) c leaving) leaving),
     asked (Exit c leaving) st2).
Proof.
  intros Henter Hbody. unfold with_context. rewrite Henter. cbn [answer].
  rewrite Hbody.
  destruct leaving as [e |]; cbn [ends_in];
    destruct (on_exit p (history st2) c _) as [e' | []]; reflexivity.
Qed.

(** The block under the session: the methods of [script] are awaited in
    turn until one raises, and each answer but the first is printed once it
    has come. *)
Lemma session_block_run {R : Type} (p : peer R) (st : client R) :
  then_ (call p Initialize) (λ _,
  then_ (call p ListPrompts) (λ prompts,
  then_ (show "prompts: " prompts) (λ _,
  then_ (call p ListResources) (λ resources,
  then_ (show "resources: " resources) (λ _,
  then_ (call p ListTools) (λ tools,
  then_ (show "tools: " tools) (λ _,
  then_ (call p (CallTool "search_content" [("keyword", PyStr "conduct")]))
    (λ result,
  show "search results:" result)))))))) st
  = (ends_in (attempts p (history st) script).2,
     {| history := history st ++ (Call <$> (attempts p (history st) script).1);
        shown := shown st ++ omap labelled (answers p (history st) script) |}).
Proof.
  destruct st as [h out].
  unfold then_, call, show, answer, asked, script.
  repeat (cbn [history shown attempts answers];
          match goal with
          | |- context [on_call p ?h' ?m] => destruct (on_call p h' m) as [? | ?]
          end);
    cbn; by rewrite <- ?app_assoc, ?app_nil_r.
Qed.

(** What [attempts] and [answers] say of the peer: the methods asked are an
    initial part of the script; with no failure they are the whole script
    and each was answered; a failure is what the peer raised on the method
    asked last, after it had answered everything asked before. *)
Lemma attempts_prefix {R : Type} (p : peer R) (h : list client_event)
    (ms : list session_call) :
  (attempts p h ms).1 `prefix_of` ms.
Proof.
  revert h. induction ms as [| m ms IH]; intros h; cbn; [done |].
  destruct (on_call p h m) as [e | r]; cbn.
  - by apply prefix_cons, prefix_nil.
  - specialize (IH (h ++ [Call m])).
    destruct (attempts p (h ++ [Call m]) ms) as [made failure]. by apply prefix_cons.
Qed.

Lemma attempts_completed {R : Type} (p : peer R) (h : list client_event)
    (ms : list session_call) :
  (attempts p h ms).2 = None →
  (attempts p h ms).1 = ms ∧ (answers p h ms).*1 = ms.
Proof.
  revert h. induction ms as [| m ms IH]; intros h; cbn; [done |].
  destruct (on_call p h m) as [e | r]; cbn; [done |].
  specialize (IH (h ++ [Call m])).
  destruct (attempts p (h ++ [Call m]) ms) as [made failure]. cbn in *.
  intros Hnone. destruct (IH Hnone) as [-> ->]. done.
Qed.

Lemma attempts_failed {R : Type} (p : peer R) (h : list client_event)
    (ms : list session_call) (e : exn) :
  (attempts p h ms).2 = Some e →
  ∃ m, (attempts p h ms).1 = (answers p h ms).*1 ++ [m]
       ∧ on_call p (h ++ (Call <$> (answers p h ms).*1)) m = inl e.
Proof.
  revert h. induction ms as [| m ms IH]; intros h; cbn; [done |].
  destruct (on_call p h m) as [e' | r] eqn:Hm; cbn.
  - intros [= ->]. exists m. by rewrite app_nil_r.
  - specialize (IH (h ++ [Call m])).
    destruct (attempts p (h ++ [Call m]) ms) as [made failure]. cbn in *.
    intros Hsome. destruct (IH Hsome) as (m' & -> & Hm').
    exists m'. split; [done |]. by rewrite <- app_assoc in Hm'.
Qed.

Lemma answers_received {R : Type} (p : peer R) (h : list client_event)
    (ms : list session_call) (i : nat) (m : session_call) (r : R) :
  answers p h ms !! i = Some (m, r) →
  ms !! i = Some m ∧ on_call p (h ++ (Call <$> take i ms)) m = inr r.
Proof.
  revert h i. induction ms as [| m' ms IH]; intros h i; cbn; [done |].
  destruct (on_call p h m') as [e | r'] eqn:Hm; [done |].
  destruct i as [| i]; cbn.
  - intros [= -> ->]. by rewrite app_nil_r.
  - intros Hi. destruct (IH _ _ Hi) as [Hms Hr]. split; [done |].
    by rewrite <- app_assoc in Hr.
Qed.

(** ** [run] and [main] *)

(** What [run] comes to, by what the peer answers. *)
Lemma run_unfolded {R : Type} (p : peer R) (params : ServerParameters) (st : client R) :
  let stdio := StdioClient params in
  let h1 := history st ++ [Enter stdio] in
  let h2 := h1 ++ [Enter ClientSession] in
  run p params st =
    match on_enter p (history st) stdio with
    | inl e => (Raised e, {| history := h1; shown := shown st |})
    | inr _ =>
        match on_enter p h1 ClientSession with
        | inl e =>
            (ends_in (still_leaving (on_exit p h2 stdio (Some e)) (Some e)),
             {| history := h2 ++ [Exit stdio (Some e)]; shown := shown st |})
        | inr _ =>
            let tried := attempts p h2 script in
            let h3 := h2 ++ (Call <$> tried.1) in
            let leaving := still_leaving (on_exit p h3 ClientSession tried.2) tried.2 in
            (ends_in (still_leaving (on_exit p (h3 ++ [Exit ClientSession tried.2])
                                       stdio leaving) leaving),
             {| history := (h3 ++ [Exit ClientSession tried.2]) ++ [Exit stdio leaving];
                shown := shown st ++ omap labelled (answers p h2 script) |})
        end
    end.
Proof.
  intros stdio h1 h2. unfold run. fold stdio.
  destruct (on_enter p (history st) stdio) as [e | x] eqn:Hstdio.
  { by rewrite (with_context_not_entered _ _ _ _ _ Hstdio). }
  destruct (on_enter p h1 ClientSession) as [e | session] eqn:Hsession.
  - rewrite (with_context_entered p stdio _ st
               (asked (Enter ClientSession) (asked (Enter stdio) st)) x (Some e) Hstdio);
      [reflexivity |].
    cbn beta. exact (with_context_not_entered p ClientSession _ (asked (Enter stdio) st) e
                       Hsession).
  - set (st1 := asked (Enter ClientSession) (asked (Enter stdio) st)).
    set (tried := attempts p h2 script).
    set (st2 := {| history := history st1 ++ (Call <$> tried.1);
                   shown := shown st1 ++ omap labelled (answers p h2 script) |}).
    rewrite (with_context_entered p stdio _ st
               (asked (Exit ClientSession tried.2) st2) x
               (still_leaving (on_exit p (history st2) ClientSession tried.2) tried.2)
               Hstdio); [reflexivity |].
    cbn beta.
    rewrite (with_context_entered p ClientSession _ (asked (Enter stdio) st)
               st2 session tried.2 Hsession); [reflexivity |].
    cbn beta. apply session_block_run.
Qed.

(** X7.  Executed without [RESPONSIVE_API_TOKEN] in its environment, the
    client stops at [server_params] with a validation error, having asked
    nothing.  With it, what the client asks of the library is, in order:
    to enter the stdio client for [python3 mcp_responsive.py] with the
    credential in its environment, and no more if that raises; to enter the
    session, and if that raises only to exit the stdio client with that
    exception; otherwise the methods of the script (initialize,
    list_prompts, list_resources, list_tools, call_tool) one after the
    other up to and including the first that raises, then to exit the
    session with what that method raised, if any, and to exit the stdio
    client with what is still leaving after the session's exit. *)
Theorem client_asks_in_order {R : Type} (p : peer R) (environ : gmap string string)
    (st : client R) :
  match environ !! "RESPONSIVE_API_TOKEN" with
  | None => ∃ msg, main p environ st = (Raised (PyExn ValueError msg), st)
  | Some tok =>
      let stdio := launched tok in
      let h1 := history st ++ [Enter stdio] in
      let h2 := h1 ++ [Enter ClientSession] in
      history (main p environ st).2 =
        match on_enter p (history st) stdio with
        | inl _ => h1
        | inr _ =>
            match on_enter p h1 ClientSession with
            | inl e => h2 ++ [Exit stdio (Some e)]
            | inr _ =>
                let tried := attempts p h2 script in
                let h3 := h2 ++ (Call <$> tried.1) in
                let leaving :=
                  still_leaving (on_exit p h3 ClientSession tried.2) tried.2 in
                h3 ++ [Exit ClientSession tried.2; Exit stdio leaving]
            end
        end
  end.
Proof.
  unfold main, server_params.
  destruct (environ !! "RESPONSIVE_API_TOKEN") as [tok |]; [| by eexists].
  unfold launched. cbn zeta. rewrite run_unfolded. cbn zeta.
  destruct (on_enter p (history st) (StdioClient _)) as [e | x]; [done |].
  destruct (on_enter p _ ClientSession) as [e | session]; [done |].
  cbn [snd history]. by rewrite <- app_assoc.
Qed.

Lemma client_asks_in_order_witness :
  history (main counting_peer client_environ fresh_client).2
  = [Enter (launched "secret"); Enter ClientSession;
     Call Initialize; Call ListPrompts; Call ListResources; Call ListTools;
     Call (CallTool "search_content" [("keyword", PyStr "conduct")]);
     Exit ClientSession None; Exit (launched "secret") None].
Proof.
  exact (client_asks_in_order counting_peer client_environ fresh_client).
Defined.

(** X8.  With the credential in its environment, the client ends in what
    is still leaving after the exits: what entering the stdio client
    raised; else what entering the session, or the first failing method of
    the script, raised, unless an [__aexit__] swallowed it or raised in its
    place; else it returns.  It prints, and only once both contexts are
    entered, one line for each of list_prompts, list_resources, list_tools
    and call_tool that was answered before any method raised: the method's
    label and the answer received for it, in the order of the script.  The
    answer to initialize is not printed, and nothing is printed for or
    after a method that raised. *)
Theorem client_prints_what_it_received {R : Type} (p : peer R)
    (environ : gmap string string) (tok : string) (st : client R) :
  environ !! "RESPONSIVE_API_TOKEN" = Some tok →
  let stdio := launched tok in
  let h1 := history st ++ [Enter stdio] in
  let h2 := h1 ++ [Enter ClientSession] in
  (main p environ st).1 =
    match on_enter p (history st) stdio with
    | inl e => Raised e
    | inr _ =>
        match on_enter p h1 ClientSession with
        | inl e => ends_in (still_leaving (on_exit p h2 stdio (Some e)) (Some e))
        | inr _ =>
            let tried := attempts p h2 script in
            let h3 := h2 ++ (Call <$> tried.1) in
            let leaving :=
              still_leaving (on_exit p h3 ClientSession tried.2) tried.2 in
            ends_in (still_leaving (on_exit p (h3 ++ [Exit ClientSession tried.2])
                                      stdio leaving) leaving)
        end
    end
  ∧ shown (main p environ st).2 =
      match on_enter p (history st) stdio, on_enter p h1 ClientSession with
      | inr _, inr _ => shown st ++ omap labelled (answers p h2 script)
      | _, _ => shown st
      end.
Proof.
  intros Htok. unfold main, server_params. rewrite Htok.
  unfold launched. cbn zeta. rewrite run_unfolded. cbn zeta.
  destruct (on_enter p (history st) (StdioClient _)) as [e | x]; [done |].
  destruct (on_enter p _ ClientSession) as [e | session]; done.
Qed.

Lemma client_prints_what_it_received_witness :
  (main counting_peer client_environ fresh_client).1 = Returned tt
  ∧ shown (main counting_peer client_environ fresh_client).2
    = [("prompts: ", 3); ("resources: ", 4); ("tools: ", 5); ("search results:", 6)].
Proof.
  exact (client_prints_what_it_received counting_peer client_environ "secret"
           fresh_client eq_refl).
Defined.
